(** * wechat-tool: plugin host, command router and configuration store

    A shallow embedding of the core of the bot
    ([core/config_manager.py], [core/plugin_manager.py],
    [core/message_handler.py], [core/base_plugin.py]) together with the
    properties of its specification.

    Conventions of the embedding.
    - A Python [str] is a [string] holding its UTF-8 encoding.  The
      operations the core applies to text ([startswith('/')], [split] on an
      ASCII separator, concatenation, truth value) commute with the
      encoding; [strip] and the case-insensitive match are written over the
      encoded code points.
    - Python values that reach the core untyped (configuration values, the
      fields of a message, the reply of a plugin) are elements of [pyval].
      Floats and byte strings are left out: for the operations used here
      they behave like [VInt] (not subscriptable, not iterable).
    - A Python [dict] is an insertion-ordered association list with unique
      keys ([dict]); assignment to a present key keeps its position,
      assignment to an absent key appends.
    - The configuration is a tree of values ([pyval]) where a property
      is about what a path leads to, and a store of objects held by
      reference ([ConfigObjects]) where it matters that two paths can lead
      to one mapping.
    - Only exceptions deriving from [Exception] are modelled; these are the
      ones an [except Exception] clause catches. *)

From Stdlib Require Import String Ascii List ZArith Bool Arith Lia DecimalString.
Import ListNotations.
Local Open Scope list_scope.
Local Open Scope string_scope.
#[local] Set Warnings "-register-all".

(** ** Python values and exceptions *)

Inductive pyval : Type :=
| VNone
| VBool (b : bool)
| VInt (z : Z)
| VStr (s : string)
| VList (items : list pyval)
| VDict (entries : list (string * pyval)).

(** Exceptions.  Those the interpreter raises carry no text (it varies with
    the interpreter's version); those raised by the program carry the
    message they are built with. *)
Inductive exn : Type :=
| KeyError (key : string)
| TypeError
| AttributeError
| IndexError
| ValueError (msg : string)
| NotImplementedError (msg : string)
| RuntimeError (msg : string).

Inductive result (A : Type) : Type :=
| Ok (a : A)
| Raise (e : exn).
Arguments Ok {A} a.
Arguments Raise {A} e.

Definition rbind {A B} (r : result A) (k : A -> result B) : result B :=
  match r with
  | Ok a => k a
  | Raise e => Raise e
  end.

(** ** Insertion-ordered dictionaries *)

Definition dict (V : Type) : Type := list (string * V).

Fixpoint dict_get {V} (k : string) (d : dict V) : option V :=
  match d with
  | [] => None
  | (k', v) :: d' => if String.eqb k k' then Some v else dict_get k d'
  end.

Definition dict_mem {V} (k : string) (d : dict V) : bool :=
  match dict_get k d with Some _ => true | None => false end.

(** [d[k] = v] *)
Fixpoint dict_set {V} (k : string) (v : V) (d : dict V) : dict V :=
  match d with
  | [] => [(k, v)]
  | (k', v') :: d' =>
      if String.eqb k k' then (k', v) :: d' else (k', v') :: dict_set k v d'
  end.

(** [del d[k]] *)
Definition dict_del {V} (k : string) (d : dict V) : dict V :=
  filter (fun kv => negb (String.eqb k (fst kv))) d.

Definition dict_keys {V} (d : dict V) : list string := map fst d.

(** ** Text helpers *)

(** [s.split(sep)] for a one-character separator: never the empty list. *)
Fixpoint split_on (sep : ascii) (s : string) : list string :=
  match s with
  | EmptyString => [EmptyString]
  | String c s' =>
      if Ascii.eqb c sep then EmptyString :: split_on sep s'
      else match split_on sep s' with
           | [] => [String c EmptyString]
           | w :: ws => String c w :: ws
           end
  end.

(** [k in s] for two strings: substring test. *)
Definition str_contains (k s : string) : bool :=
  match String.index 0 k s with Some _ => true | None => false end.

(** ** Subscripting, membership and item assignment with a [str] key *)

(** [container[k]] *)
Definition py_getitem (container : pyval) (k : string) : result pyval :=
  match container with
  | VDict d =>
      match dict_get k d with
      | Some v => Ok v
      | None => Raise (KeyError k)
      end
  | _ => Raise TypeError
  end.

(** [k in container] *)
Definition py_contains (k : string) (container : pyval) : result bool :=
  match container with
  | VDict d => Ok (dict_mem k d)
  | VStr s => Ok (str_contains k s)
  | VList l =>
      Ok (existsb (fun x => match x with VStr s => String.eqb s k | _ => false end) l)
  | _ => Raise TypeError
  end.

(** [container[k] = v] *)
Definition py_setitem (container : pyval) (k : string) (v : pyval) : result pyval :=
  match container with
  | VDict d => Ok (VDict (dict_set k v d))
  | _ => Raise TypeError
  end.

(** ** ConfigManager *)

Module ConfigManager.

(** [_get_default_config] *)
Definition _get_default_config : pyval :=
  VDict [
    ("wechat", VDict [
       ("login_timeout", VInt 300);
       ("enable_cmd_qr", VBool true);
       ("hot_reload", VBool true) ]);
    ("file_processing", VDict [
       ("upload_dir", VStr "uploads");
       ("output_dir", VStr "outputs");
       ("max_file_size", VInt 50);
       ("supported_formats", VDict [
          ("word", VList [VStr ".doc"; VStr ".docx"]);
          ("pdf", VList [VStr ".pdf"]);
          ("image", VList [VStr ".jpg"; VStr ".jpeg"; VStr ".png";
                           VStr ".bmp"; VStr ".gif"; VStr ".tiff"]) ]) ]);
    ("scheduler", VDict [
       ("timezone", VStr "Asia/Shanghai");
       ("max_jobs", VInt 100) ]);
    ("news", VDict [
       ("sources", VList [VStr "https://www.jrj.com.cn/";
                          VStr "https://finance.sina.com.cn/";
                          VStr "https://www.10jqka.com.cn/"]);
       ("keywords", VList [VStr "金融"; VStr "股市"; VStr "基金";
                           VStr "理财"; VStr "投资"]);
       ("max_news_count", VInt 5) ]);
    ("logging", VDict [
       ("level", VStr "INFO");
       ("format", VStr "{time:YYYY-MM-DD HH:mm:ss} | {level} | {name}:{function}:{line} - {message}");
       ("file", VStr "logs/wechat_bot.log") ]);
    ("database", VDict [
       ("path", VStr "data/wechat_bot.db") ]);
    ("plugins", VDict [
       ("enabled", VList [VStr "file_converter"; VStr "scheduler";
                          VStr "news_pusher"; VStr "help"]);
       ("auto_reload", VBool true) ])
  ].

(** The loop [for k in keys: value = value[k]] of [get]. *)
Fixpoint walk (value : pyval) (keys : list string) : result pyval :=
  match keys with
  | [] => Ok value
  | k :: keys' => rbind (py_getitem value k) (fun child => walk child keys')
  end.

(** [get(key, default)]: the walk runs under [except (KeyError, TypeError)];
    any other exception would propagate. *)
Definition get (config : pyval) (key : string) (default : pyval) : result pyval :=
  let keys := split_on "." key in
  match walk config keys with
  | Ok value => Ok value
  | Raise (KeyError _) => Ok default
  | Raise TypeError => Ok default
  | Raise e => Raise e
  end.

(** The body of [set] from a cursor [config] on: the loop over [keys[:-1]]
    followed by the final assignment.  The source moves a reference down
    the tree and mutates in place; here the updated child is stored back
    into its parent, which is what the parent's reference observes.  What
    a second reference to the same mapping observes is not in this
    picture: [ConfigObjects] below has the objects and their addresses. *)
Fixpoint set_keys (config : pyval) (keys : list string) (value : pyval)
  : result pyval :=
  match keys with
  | [] => Raise IndexError
  | [k] => py_setitem config k value
  | k :: keys' =>
      rbind (py_contains k config) (fun present =>
      rbind (if present then Ok config else py_setitem config k (VDict []))
        (fun config1 =>
      rbind (py_getitem config1 k) (fun child =>
      rbind (set_keys child keys' value) (fun child' =>
      py_setitem config1 k child'))))
  end.

(** [set(key, value)]: the configuration after the call, or the exception
    that escapes.  An exception can only be raised before anything has
    been assigned, so a failed [set] leaves the tree as it was. *)
Definition set (config : pyval) (key : string) (value : pyval) : result pyval :=
  set_keys config (split_on "." key) value.

(** The loop of [validate]: the first required key whose value is
    [None], if there is one. *)
Definition required_keys : list string :=
  [ "wechat.login_timeout"; "file_processing.upload_dir";
    "file_processing.output_dir"; "logging.level"; "database.path" ].

Definition is_none (v : pyval) : bool :=
  match v with VNone => true | _ => false end.

Fixpoint first_missing (config : pyval) (keys : list string)
  : result (option string) :=
  match keys with
  | [] => Ok None
  | key :: keys' =>
      rbind (get config key VNone) (fun v =>
      if is_none v then Ok (Some key) else first_missing config keys')
  end.

End ConfigManager.

(** ** More text helpers: [strip], case-insensitive match, formatting *)

Definition bytes (l : list nat) : string :=
  fold_right (fun n s => String (ascii_of_nat n) s) EmptyString l.

(** The code points for which [str.isspace] holds, UTF-8 encoded:
    U+0009..U+000D, U+001C..U+0020, U+0085, U+00A0, U+1680,
    U+2000..U+200A, U+2028, U+2029, U+202F, U+205F, U+3000. *)
Definition whitespace : list string :=
  map bytes
    [ [9]; [10]; [11]; [12]; [13]; [28]; [29]; [30]; [31]; [32];
      [194; 133]; [194; 160]; [225; 154; 128];
      [226; 128; 128]; [226; 128; 129]; [226; 128; 130]; [226; 128; 131];
      [226; 128; 132]; [226; 128; 133]; [226; 128; 134]; [226; 128; 135];
      [226; 128; 136]; [226; 128; 137]; [226; 128; 138];
      [226; 128; 168]; [226; 128; 169]; [226; 128; 175];
      [226; 129; 159]; [227; 128; 128] ].

(** [Some r] when [s = w ++ r]. *)
Fixpoint drop_prefix (w s : string) : option string :=
  match w, s with
  | EmptyString, _ => Some s
  | String a w', String b s' => if Ascii.eqb a b then drop_prefix w' s' else None
  | String _ _, EmptyString => None
  end.

Fixpoint drop_any (ws : list string) (s : string) : option string :=
  match ws with
  | [] => None
  | w :: ws' =>
      match drop_prefix w s with
      | Some r => Some r
      | None => drop_any ws' s
      end
  end.

Fixpoint strip_prefixes (ws : list string) (fuel : nat) (s : string) : string :=
  match fuel with
  | O => s
  | S fuel' =>
      match drop_any ws s with
      | Some r => strip_prefixes ws fuel' r
      | None => s
      end
  end.

Fixpoint string_rev (s : string) : string :=
  match s with
  | EmptyString => EmptyString
  | String c s' => string_rev s' ++ String c EmptyString
  end.

Definition lstrip (s : string) : string :=
  strip_prefixes whitespace (String.length s) s.

Definition rstrip (s : string) : string :=
  string_rev
    (strip_prefixes (map string_rev whitespace) (String.length s) (string_rev s)).

(** [s.strip()] *)
Definition strip (s : string) : string := rstrip (lstrip s).

(** [s.startswith('/')] *)
Definition startswith_slash (s : string) : bool :=
  match s with
  | String c _ => Ascii.eqb c "/"
  | EmptyString => false
  end.

(** [s[1:]] *)
Definition tail (s : string) : string :=
  match s with
  | String _ s' => s'
  | EmptyString => EmptyString
  end.

(** [s.split(' ', 1)] *)
Fixpoint split_space_once (s : string) : list string :=
  match s with
  | EmptyString => [EmptyString]
  | String c s' =>
      if Ascii.eqb c " " then [EmptyString; s']
      else match split_space_once s' with
           | [] => [String c EmptyString]
           | w :: ws => String c w :: ws
           end
  end.

(** Case folding as [re.IGNORECASE] applies it to the letters of the
    command patterns: the ASCII capitals, and the four letters outside
    ASCII that match an ASCII letter, U+0130 and U+0131 ([i]), U+017F ([s])
    and U+212A ([k]). *)
Fixpoint casefold (s : string) : string :=
  match s with
  | EmptyString => EmptyString
  | String a s1 =>
      let n := nat_of_ascii a in
      if Nat.leb 65 n && Nat.leb n 90
      then String (ascii_of_nat (n + 32)) (casefold s1)
      else
        match s1 with
        | String b s2 =>
            let m := nat_of_ascii b in
            if Nat.eqb n 196 && (Nat.eqb m 176 || Nat.eqb m 177)
            then String "i" (casefold s2)
            else if Nat.eqb n 197 && Nat.eqb m 191
            then String "s" (casefold s2)
            else
              match s2 with
              | String c s3 =>
                  if Nat.eqb n 226 && Nat.eqb m 132 && Nat.eqb (nat_of_ascii c) 170
                  then String "k" (casefold s3)
                  else String a (casefold s1)
              | EmptyString => String a (casefold s1)
              end
        | EmptyString => String a EmptyString
        end
  end.

(** [re.match(pattern, text, re.IGNORECASE)] for a pattern of the shape
    [^w1$|^w2$], given by its words.  Without [re.MULTILINE], [$] matches
    at the end of the text and before a newline that ends it. *)
Definition re_match (words : list string) (text : string) : bool :=
  let t := casefold text in
  existsb (fun w => String.eqb t w || String.eqb t (w ++ bytes [10])) words.

(** [sep.join(items)] *)
Fixpoint join (sep : string) (items : list string) : string :=
  match items with
  | [] => EmptyString
  | [x] => x
  | x :: items' => x ++ sep ++ join sep items'
  end.

(** [str(n)] for a length *)
Definition str_of_nat (n : nat) : string :=
  DecimalString.NilEmpty.string_of_uint (Nat.to_uint n).

(** The code points of a [str], each as a [str]. *)
Definition is_continuation (a : ascii) : bool :=
  let n := nat_of_ascii a in Nat.leb 128 n && Nat.leb n 191.

Definition starts_with_continuation (s : string) : bool :=
  match s with
  | String c _ => is_continuation c
  | EmptyString => false
  end.

Fixpoint utf8_chars (s : string) : list string :=
  match s with
  | EmptyString => []
  | String c s' =>
      match utf8_chars s' with
      | g :: gs =>
          if starts_with_continuation s' then String c g :: gs
          else String c EmptyString :: g :: gs
      | [] => [String c EmptyString]
      end
  end.

(** The truth value of a value, as [if v:] takes it. *)
Definition py_truthy (v : pyval) : bool :=
  match v with
  | VNone => false
  | VBool b => b
  | VInt z => negb (Z.eqb z 0)
  | VStr s => negb (String.eqb s EmptyString)
  | VList l => match l with [] => false | _ => true end
  | VDict d => match d with [] => false | _ => true end
  end.

(** [v.strip()]: only a [str] has the method. *)
Definition py_strip (v : pyval) : result string :=
  match v with
  | VStr s => Ok (strip s)
  | _ => Raise AttributeError
  end.

(** [for x in v]: the items the loop visits. *)
Definition py_iter (v : pyval) : result (list pyval) :=
  match v with
  | VList l => Ok l
  | VDict d => Ok (map VStr (dict_keys d))
  | VStr s => Ok (map VStr (utf8_chars s))
  | _ => Raise TypeError
  end.

(** ** Plugins: the contract of [core/base_plugin.py] *)

Module BasePlugin.

(** The attributes [BasePlugin.__init__] creates, and the private state of
    the concrete plugin. *)
Record instance : Type := {
  name : string;
  version : string;
  description : string;
  is_running : bool;
  is_enabled : bool;
  private : pyval
}.

(** [BasePlugin.__init__] for a class called [class_name]. *)
Definition init (class_name : string) : instance :=
  {| name := class_name;
     version := "1.0.0";
     description := "插件描述";
     is_running := false;
     is_enabled := true;
     private := VNone |}.

(** A concrete subclass: its constructor and the methods the core calls.
    Each method reads the shared configuration, may change the attributes
    of its own instance and may raise; a change made before an exception
    is raised stays.  What a plugin does beyond its own attributes (its
    logging, its database, its timers) is not part of the core. *)
Record class : Type := {
  new : pyval -> result instance;
  start : pyval -> instance -> instance * result unit;
  stop : pyval -> instance -> instance * result unit;
  execute_command :
    pyval -> instance -> string -> dict pyval -> instance * result pyval
}.

(** [BasePlugin.execute_command], inherited unless overridden. *)
Definition execute_command_default
  (config : pyval) (self : instance) (command : string) (kwargs : dict pyval)
  : instance * result pyval :=
  (self, Raise (NotImplementedError ("插件 " ++ name self ++ " 不支持命令执行"))).

End BasePlugin.

(** A live plugin object: its class and its attributes. *)
Record Plugin : Type := {
  cls : BasePlugin.class;
  self_ : BasePlugin.instance
}.

(** What [inspect.getmembers] finds in a plugin module: [BasePlugin]
    itself (imported by every plugin file), a class deriving from it, or
    anything else. *)
Inductive Member : Type :=
| MBasePlugin
| MPluginClass (c : BasePlugin.class)
| MOther.

(** A loaded module: its members in the order [inspect.getmembers] lists
    them (sorted by name). *)
Record PyModule : Type := { members : list (string * Member) }.

(** ** The state of the host and its monad *)

Inductive Level : Type := INFO | WARNING | ERROR.

(** A call to the logger: level, the text as the source writes it, the
    values interpolated and the exception reported, if any. *)
Record LogEntry : Type := {
  level : Level;
  template : string;
  args : list pyval;
  cause : option exn
}.

(** [config] is [ConfigManager.config]; [plugins] and [plugin_modules] are
    the two dictionaries of the [PluginManager]; [files] is the plugin
    directory as the loader sees it: for a path, [None] when no file is
    there, otherwise what executing the file as a module gives. *)
Record World : Type := {
  config : pyval;
  plugins : dict Plugin;
  plugin_modules : dict PyModule;
  log : list LogEntry;
  files : string -> option (result PyModule)
}.

Definition set_plugins (f : dict Plugin -> dict Plugin) (w : World) : World :=
  {| config := config w; plugins := f (plugins w);
     plugin_modules := plugin_modules w; log := log w; files := files w |}.

Definition set_plugin_modules (f : dict PyModule -> dict PyModule) (w : World)
  : World :=
  {| config := config w; plugins := plugins w;
     plugin_modules := f (plugin_modules w); log := log w; files := files w |}.

Definition add_log (e : LogEntry) (w : World) : World :=
  {| config := config w; plugins := plugins w;
     plugin_modules := plugin_modules w; log := (log w ++ [e])%list;
     files := files w |}.

(** Computations that change the world and return or raise.  An exception
    does not undo what was done before it. *)
Definition M (A : Type) : Type := World -> World * result A.

Definition ret {A} (a : A) : M A := fun w => (w, Ok a).

Definition raise {A} (e : exn) : M A := fun w => (w, Raise e).

Definition bind {A B} (c : M A) (k : A -> M B) : M B :=
  fun w =>
    match c w with
    | (w', Ok a) => k a w'
    | (w', Raise e) => (w', Raise e)
    end.

(** [try: body / except Exception as e: handler] *)
Definition try_except {A} (body : M A) (handler : exn -> M A) : M A :=
  fun w =>
    match body w with
    | (w', Ok a) => (w', Ok a)
    | (w', Raise e) => handler e w'
    end.

Definition gets {A} (f : World -> A) : M A := fun w => (w, Ok (f w)).

Definition modify (f : World -> World) : M unit := fun w => (f w, Ok tt).

Definition lift {A} (r : result A) : M A := fun w => (w, r).

Declare Scope host_scope.
Delimit Scope host_scope with host.
Notation "x <- c ;; k" := (bind c (fun x => k))
  (at level 61, c at next level, right associativity) : host_scope.
Notation "c ;; k" := (bind c (fun _ => k))
  (at level 61, right associativity) : host_scope.
Local Open Scope host_scope.

Definition logger (lv : Level) (t : string) (a : list pyval) (c : option exn)
  : M unit :=
  modify (add_log {| level := lv; template := t; args := a; cause := c |}).

(** [for x in items: body(x)] *)
Fixpoint for_each {A} (items : list A) (body : A -> M unit) : M unit :=
  match items with
  | [] => ret tt
  | x :: items' => body x ;; for_each items' body
  end.

(** A method call [plugin.method(...)] on the object registered under
    [plugin_name]: the method runs on the object's attributes, and since
    the registry holds the object itself, it sees the attributes change. *)
Definition invoke {A} (plugin_name : string)
  (method : BasePlugin.class -> pyval -> BasePlugin.instance ->
            BasePlugin.instance * result A) : M A :=
  fun w =>
    match dict_get plugin_name (plugins w) with
    | None => (w, Raise (KeyError plugin_name))
    | Some plugin =>
        let '(self', r) := method (cls plugin) (config w) (self_ plugin) in
        (set_plugins
           (dict_set plugin_name {| cls := cls plugin; self_ := self' |}) w,
         r)
    end.

(** [self.config.get(key, default)] *)
Definition config_get (key : string) (default : pyval) : M pyval :=
  fun w => (w, ConfigManager.get (config w) key default).

(** [self.config.validate()]: [False], with an error logged, at the first
    required key that is missing; [True] when there is none. *)
Definition config_validate : M bool :=
  cfg <- gets config ;;
  missing <- lift (ConfigManager.first_missing cfg ConfigManager.required_keys) ;;
  match missing with
  | Some key =>
      logger ERROR "缺少必需的配置项: {key}" [VStr key] None ;;
      ret false
  | None => ret true
  end.

(** ** PluginManager *)

Module PluginManager.

Definition plugins_dir : string := "plugins".

(** [os.path.join(a, b)] on POSIX, for a directory [a] that is not empty
    and does not end with a slash. *)
Definition path_join (a b : string) : string :=
  if startswith_slash b then b else a ++ "/" ++ b.

(** The search of [load_plugin] through the module's members: the first
    class deriving from [BasePlugin] other than [BasePlugin] itself. *)
Fixpoint find_plugin_class (ms : list (string * Member))
  : option BasePlugin.class :=
  match ms with
  | [] => None
  | (_, MPluginClass c) :: _ => Some c
  | _ :: ms' => find_plugin_class ms'
  end.

(** [load_plugin].  [executed] is what [importlib]'s three calls give for
    the file: the module, or the exception raised while running it. *)
Definition load_plugin (plugin_name : string) : M (option Plugin) :=
  try_except
    (let plugin_path := path_join plugins_dir (plugin_name ++ ".py") in
     fs <- gets files ;;
     match fs plugin_path with
     | None =>
         logger WARNING "插件文件不存在: {plugin_path}" [VStr plugin_path] None ;;
         ret None
     | Some executed =>
         module <- lift executed ;;
         match find_plugin_class (members module) with
         | None =>
             logger ERROR "在插件 {plugin_name} 中未找到有效的插件类"
               [VStr plugin_name] None ;;
             ret None
         | Some plugin_class =>
             cfg <- gets config ;;
             self <- lift (BasePlugin.new plugin_class cfg) ;;
             let plugin_instance := {| cls := plugin_class; self_ := self |} in
             modify (set_plugins (dict_set plugin_name plugin_instance)) ;;
             modify (set_plugin_modules (dict_set plugin_name module)) ;;
             logger INFO "插件 {plugin_name} 加载成功" [VStr plugin_name] None ;;
             ret (Some plugin_instance)
         end
     end)
    (fun e =>
       logger ERROR "加载插件 {plugin_name} 失败: {e}" [VStr plugin_name] (Some e) ;;
       ret None).

(** One turn of a loop over the configured names.  A plugin name is a
    [str]; an item of another type names no module ([load_plugin] cannot
    register it) and is passed over here, the line logged for it left
    out. *)
Definition load_item (item : pyval) : M unit :=
  match item with
  | VStr plugin_name => _ <- load_plugin plugin_name ;; ret tt
  | _ => ret tt
  end.

(** [load_plugins] *)
Definition load_plugins : M unit :=
  enabled_plugins <- config_get "plugins.enabled" (VList []) ;;
  items <- lift (py_iter enabled_plugins) ;;
  for_each items (fun plugin_name =>
    try_except
      (load_item plugin_name)
      (fun e =>
         logger ERROR "加载插件 {plugin_name} 失败: {e}" [plugin_name] (Some e))).

(** [unload_plugin] *)
Definition unload_plugin (plugin_name : string) : M bool :=
  try_except
    (present <- gets (fun w => dict_mem plugin_name (plugins w)) ;;
     if present then
       invoke plugin_name BasePlugin.stop ;;
       modify (set_plugins (dict_del plugin_name)) ;;
       in_modules <- gets (fun w => dict_mem plugin_name (plugin_modules w)) ;;
       (if in_modules
        then modify (set_plugin_modules (dict_del plugin_name))
        else ret tt) ;;
       logger INFO "插件 {plugin_name} 卸载成功" [VStr plugin_name] None ;;
       ret true
     else
       logger WARNING "插件 {plugin_name} 不存在" [VStr plugin_name] None ;;
       ret false)
    (fun e =>
       logger ERROR "卸载插件 {plugin_name} 失败: {e}" [VStr plugin_name] (Some e) ;;
       ret false).

(** [reload_plugin] *)
Definition reload_plugin (plugin_name : string) : M bool :=
  try_except
    (_ <- unload_plugin plugin_name ;;
     loaded <- load_plugin plugin_name ;;
     ret (match loaded with Some _ => true | None => false end))
    (fun e =>
       logger ERROR "重新加载插件 {plugin_name} 失败: {e}" [VStr plugin_name] (Some e) ;;
       ret false).

(** [reload_plugins] *)
Definition reload_plugins : M unit :=
  logger INFO "开始重新加载所有插件..." [] None ;;
  enabled_plugins <- config_get "plugins.enabled" (VList []) ;;
  loaded <- gets (fun w => dict_keys (plugins w)) ;;
  for_each loaded (fun plugin_name => _ <- unload_plugin plugin_name ;; ret tt) ;;
  items <- lift (py_iter enabled_plugins) ;;
  for_each items load_item ;;
  logger INFO "插件重新加载完成" [] None.

(** [start_plugins].  The loop runs over the entries of the registry; a
    plugin method changes its own object only, so the keys visited are
    those present when the loop starts. *)
Definition start_plugins : M unit :=
  names <- gets (fun w => dict_keys (plugins w)) ;;
  for_each names (fun plugin_name =>
    try_except
      (invoke plugin_name BasePlugin.start ;;
       logger INFO "插件 {plugin_name} 启动成功" [VStr plugin_name] None)
      (fun e =>
         logger ERROR "启动插件 {plugin_name} 失败: {e}" [VStr plugin_name] (Some e))).

(** [stop_plugins] *)
Definition stop_plugins : M unit :=
  names <- gets (fun w => dict_keys (plugins w)) ;;
  for_each names (fun plugin_name =>
    try_except
      (invoke plugin_name BasePlugin.stop ;;
       logger INFO "插件 {plugin_name} 停止成功" [VStr plugin_name] None)
      (fun e =>
         logger ERROR "停止插件 {plugin_name} 失败: {e}" [VStr plugin_name] (Some e))).

(** [get_plugin] *)
Definition get_plugin (plugin_name : string) : M (option Plugin) :=
  gets (fun w => dict_get plugin_name (plugins w)).

(** The dictionary [get_status] returns. *)
Record PluginDetails : Type := {
  d_name : string;
  d_version : string;
  d_description : string;
  d_is_running : bool
}.

Record Status : Type := {
  total_plugins : nat;
  enabled_plugins : pyval;
  loaded_plugins : list string;
  plugin_details : dict PluginDetails
}.

(** [get_status] *)
Definition get_status : M Status :=
  enabled <- config_get "plugins.enabled" (VList []) ;;
  registry <- gets plugins ;;
  ret {| total_plugins := List.length registry;
         enabled_plugins := enabled;
         loaded_plugins := dict_keys registry;
         plugin_details :=
           map (fun '(name, plugin) =>
                  (name,
                   {| d_name := BasePlugin.name (self_ plugin);
                      d_version := BasePlugin.version (self_ plugin);
                      d_description := BasePlugin.description (self_ plugin);
                      d_is_running := BasePlugin.is_running (self_ plugin) |}))
               registry |}.

(** [execute_plugin_command].  Every plugin object derives from
    [BasePlugin] and so has the attribute [execute_command]. *)
Definition execute_plugin_command
  (plugin_name : string) (command : string) (kwargs : dict pyval) : M pyval :=
  plugin <- get_plugin plugin_name ;;
  match plugin with
  | None => raise (ValueError ("插件 " ++ plugin_name ++ " 不存在"))
  | Some _ =>
      invoke plugin_name
        (fun c cfg self => BasePlugin.execute_command c cfg self command kwargs)
  end.

End PluginManager.

(** ** MessageHandler *)

Module MessageHandler.

(** The handler object.  [plugin_manager] is the attribute [core/bot.py]
    injects after construction; [_get_plugin_manager] reads it with
    [getattr(self, 'plugin_manager', None)]. *)
Inductive manager_ref : Type := the_plugin_manager.

Record handler : Type := { plugin_manager : option manager_ref }.

Definition _get_plugin_manager (self : handler) : option manager_ref :=
  plugin_manager self.

Inductive system_command : Type :=
| cmd_help | cmd_status | cmd_plugins | cmd_reload.

(** [command_patterns]: each pattern [^w1$|^w2$] by its two words. *)
Definition command_patterns : list (list string * system_command) :=
  [ (["帮助"; "help"], cmd_help);
    (["状态"; "status"], cmd_status);
    (["插件"; "plugins"], cmd_plugins);
    (["重载"; "reload"], cmd_reload) ].

Definition nl : string := bytes [10].

Definition lines (ls : list string) : string := join nl ls.

(** [_handle_help] *)
Definition help_text : string :=
  lines [
    EmptyString;
    "🤖 微信工具机器人帮助";
    EmptyString;
    "📋 可用命令：";
    "• 帮助/help - 显示此帮助信息";
    "• 状态/status - 查看机器人状态";
    "• 插件/plugins - 查看已安装插件";
    "• 重载/reload - 重新加载插件";
    EmptyString;
    "📁 文件处理：";
    "• 发送Word文档 → 自动转换为PDF";
    "• 发送图片文件 → 自动转换为PDF";
    "• 发送PDF文件 → 自动转换为Word";
    EmptyString;
    "⏰ 定时功能：";
    "• 设置定时提醒";
    "• 定时发送消息";
    EmptyString;
    "📰 新闻推送：";
    "• 订阅每日金融新闻";
    "• 获取热门投资资讯";
    EmptyString;
    "💡 提示：直接发送文件即可使用文件转换功能！";
    "        " ].

Definition _handle_help (self : handler) (msg : pyval) : M pyval :=
  ret (VStr (strip help_text)).

(** [_is_bot_running] *)
Definition _is_bot_running (self : handler) : bool := true.

(** [_handle_status] *)
Definition _handle_status (self : handler) (msg : pyval) : M pyval :=
  try_except
    (match _get_plugin_manager self with
     | Some _ =>
         status <- PluginManager.get_status ;;
         valid <- config_validate ;;
         let status_text :=
           lines [
             EmptyString;
             "🤖 机器人状态";
             EmptyString;
             "📊 插件统计：";
             "• 总插件数: " ++ str_of_nat (PluginManager.total_plugins status);
             "• 已加载: " ++ join ", " (PluginManager.loaded_plugins status);
             EmptyString;
             "🔧 系统状态：";
             "• 运行状态: " ++ (if _is_bot_running self then "运行中" else "已停止");
             "• 配置状态: " ++ (if valid then "正常" else "异常");
             "                " ] in
         ret (VStr (strip status_text))
     | None => ret (VStr "无法获取状态信息。")
     end)
    (fun e =>
       logger ERROR "获取状态失败: {e}" [] (Some e) ;;
       ret (VStr "获取状态信息时出现错误。")).

(** The lines [_handle_plugins] appends for one plugin. *)
Definition plugin_lines (details : PluginManager.PluginDetails) : string :=
  let status_icon := if PluginManager.d_is_running details then "🟢" else "🔴" in
  (status_icon ++ " " ++ PluginManager.d_name details ++ " v"
     ++ PluginManager.d_version details ++ nl)
  ++ ("   描述: " ++ PluginManager.d_description details ++ nl ++ nl).

(** [_handle_plugins] *)
Definition _handle_plugins (self : handler) (msg : pyval) : M pyval :=
  try_except
    (match _get_plugin_manager self with
     | Some _ =>
         status <- PluginManager.get_status ;;
         let plugins_text :=
           fold_left (fun text '(name, details) => text ++ plugin_lines details)
             (PluginManager.plugin_details status)
             ("📦 已安装插件：" ++ nl ++ nl) in
         ret (VStr (strip plugins_text))
     | None => ret (VStr "无法获取插件信息。")
     end)
    (fun e =>
       logger ERROR "获取插件信息失败: {e}" [] (Some e) ;;
       ret (VStr "获取插件信息时出现错误。")).

(** [_handle_reload] *)
Definition _handle_reload (self : handler) (msg : pyval) : M pyval :=
  try_except
    (match _get_plugin_manager self with
     | Some _ =>
         PluginManager.reload_plugins ;;
         ret (VStr "✅ 插件重新加载完成！")
     | None => ret (VStr "无法重新加载插件。")
     end)
    (fun e =>
       logger ERROR "重新加载插件失败: {e}" [] (Some e) ;;
       ret (VStr "重新加载插件时出现错误。")).

Definition run_handler (c : system_command) : handler -> pyval -> M pyval :=
  match c with
  | cmd_help => _handle_help
  | cmd_status => _handle_status
  | cmd_plugins => _handle_plugins
  | cmd_reload => _handle_reload
  end.

(** [_handle_plugin_command]; [VNone] is the source's [None].  After
    [split(' ', 1)] the list [parts] always has a first element.  A plugin
    object counts as true ([BasePlugin] defines neither [__bool__] nor
    [__len__]), so [if plugin:] asks whether the name is registered. *)
Definition _handle_plugin_command
  (self : handler) (content : string) (user_id : pyval) : M pyval :=
  try_except
    (if startswith_slash content then
       match split_space_once (tail content) with
       | plugin_name :: rest =>
           let command :=
             match rest with c :: _ => c | [] => EmptyString end in
           match _get_plugin_manager self with
           | Some _ =>
               plugin <- PluginManager.get_plugin plugin_name ;;
               match plugin with
               | Some _ =>
                   invoke plugin_name
                     (fun c cfg self_ =>
                        BasePlugin.execute_command c cfg self_ command
                          [("user_id", user_id)])
               | None =>
                   ret (VStr ("插件 '" ++ plugin_name ++ "' 不存在或未加载。"))
               end
           | None => ret VNone
           end
       | [] => ret VNone
       end
     else ret VNone)
    (fun e =>
       logger ERROR "处理插件命令失败: {e}" [] (Some e) ;;
       ret VNone).

(** [_get_default_response]; [rnd] is the number [random.choice] draws. *)
Definition responses : list string :=
  [ "有什么可以帮助您的吗？";
    "请发送文件或输入命令，我会为您处理！";
    "输入 '帮助' 查看所有可用功能。";
    "我是您的智能助手，随时为您服务！" ].

Definition _get_default_response (self : handler) (rnd : nat) : string :=
  nth (rnd mod List.length responses) responses EmptyString.

(** The loop over [command_patterns]: the handler of the first pattern
    that matches. *)
Fixpoint first_match (patterns : list (list string * system_command))
  (content : string) : option system_command :=
  match patterns with
  | [] => None
  | (pattern, h) :: patterns' =>
      if re_match pattern content then Some h else first_match patterns' content
  end.

(** [handle_text_message] *)
Definition handle_text_message (self : handler) (msg : pyval) (rnd : nat)
  : M pyval :=
  try_except
    (user_id <- lift (py_getitem msg "FromUserName") ;;
     text <- lift (py_getitem msg "Text") ;;
     content <- lift (py_strip text) ;;
     logger INFO "收到文本消息: {content} (来自: {user_id})"
       [VStr content; user_id] None ;;
     match first_match command_patterns content with
     | Some h => run_handler h self msg
     | None =>
         plugin_response <- _handle_plugin_command self content user_id ;;
         if py_truthy plugin_response then ret plugin_response
         else ret (VStr (_get_default_response self rnd))
     end)
    (fun e =>
       logger ERROR "处理文本消息失败: {e}" [] (Some e) ;;
       ret (VStr "抱歉，处理消息时出现错误。")).

End MessageHandler.

(** ** Concrete plugins, worlds and messages used to run the host *)

Module Fixtures.

(** A plugin in the style of the four shipped ones: [start] and [stop]
    set [is_running], [execute_command] answers with [reply]. *)
Definition simple_plugin (class_name : string) (reply : pyval)
  : BasePlugin.class :=
  {| BasePlugin.new := fun _ => Ok (BasePlugin.init class_name);
     BasePlugin.start := fun _ self =>
       ({| BasePlugin.name := BasePlugin.name self;
           BasePlugin.version := BasePlugin.version self;
           BasePlugin.description := BasePlugin.description self;
           BasePlugin.is_running := true;
           BasePlugin.is_enabled := BasePlugin.is_enabled self;
           BasePlugin.private := BasePlugin.private self |}, Ok tt);
     BasePlugin.stop := fun _ self =>
       ({| BasePlugin.name := BasePlugin.name self;
           BasePlugin.version := BasePlugin.version self;
           BasePlugin.description := BasePlugin.description self;
           BasePlugin.is_running := false;
           BasePlugin.is_enabled := BasePlugin.is_enabled self;
           BasePlugin.private := BasePlugin.private self |}, Ok tt);
     BasePlugin.execute_command := fun _ self _ _ => (self, Ok reply) |}.

(** A plugin whose [start] and [stop] raise and which inherits
    [BasePlugin.execute_command]. *)
Definition faulty_plugin : BasePlugin.class :=
  {| BasePlugin.new := fun _ => Ok (BasePlugin.init "FaultyPlugin");
     BasePlugin.start := fun _ self => (self, Raise (RuntimeError "start failed"));
     BasePlugin.stop := fun _ self => (self, Raise (RuntimeError "stop failed"));
     BasePlugin.execute_command := BasePlugin.execute_command_default |}.

(** A plugin whose constructor raises. *)
Definition unbuildable_plugin : BasePlugin.class :=
  {| BasePlugin.new := fun _ => Raise (RuntimeError "init failed");
     BasePlugin.start := fun _ self => (self, Ok tt);
     BasePlugin.stop := fun _ self => (self, Ok tt);
     BasePlugin.execute_command := BasePlugin.execute_command_default |}.

Definition instance_of (c : BasePlugin.class) (class_name : string) : Plugin :=
  {| cls := c; self_ := BasePlugin.init class_name |}.

Definition module_of (class_name : string) (c : BasePlugin.class) : PyModule :=
  {| members := [ ("Any", MOther); ("BasePlugin", MBasePlugin);
                  (class_name, MPluginClass c); ("logger", MOther) ] |}.

(** A plugin directory with a help and a scheduler plugin, a file that
    fails to import, a file without a plugin class and a file whose plugin
    cannot be constructed. *)
Definition plugin_files (path : string) : option (result PyModule) :=
  if String.eqb path "plugins/help.py"
  then Some (Ok (module_of "HelpPlugin" (simple_plugin "HelpPlugin" (VStr "help text"))))
  else if String.eqb path "plugins/scheduler.py"
  then Some (Ok (module_of "SchedulerPlugin"
                   (simple_plugin "SchedulerPlugin" (VStr "scheduler text"))))
  else if String.eqb path "plugins/broken.py"
  then Some (Raise (RuntimeError "SyntaxError"))
  else if String.eqb path "plugins/empty.py"
  then Some (Ok {| members := [("BasePlugin", MBasePlugin); ("os", MOther)] |})
  else if String.eqb path "plugins/unbuildable.py"
  then Some (Ok (module_of "Unbuildable" unbuildable_plugin))
  else None.

Definition enabled_config : pyval :=
  VDict [ ("plugins", VDict [ ("enabled", VList [VStr "help"; VStr "scheduler"]) ]) ].

Definition world (registry : dict Plugin) : World :=
  {| config := enabled_config;
     plugins := registry;
     plugin_modules := [];
     log := [];
     files := plugin_files |}.

Definition text_message (user text : string) : pyval :=
  VDict [ ("FromUserName", VStr user); ("Text", VStr text) ].

Definition wired : MessageHandler.handler :=
  {| MessageHandler.plugin_manager := Some MessageHandler.the_plugin_manager |}.

End Fixtures.

(** * Vocabulary of the properties *)

(** ** Configuration paths *)

Module ConfigSpec.

(** Path resolution as the specification words it: every segment must be
    found in a mapping. *)
Fixpoint resolve (tree : pyval) (path : list string) : option pyval :=
  match path with
  | [] => Some tree
  | k :: path' =>
      match tree with
      | VDict d =>
          match dict_get k d with
          | Some child => resolve child path'
          | None => None
          end
      | _ => None
      end
  end.

(** The root is not a mapping, or some segment before the last one is
    present and is not a mapping. *)
Fixpoint blocked (tree : pyval) (path : list string) : bool :=
  match tree with
  | VDict d =>
      match path with
      | k :: (_ :: _) as path' =>
          match dict_get k d with
          | Some child => blocked child path'
          | None => false
          end
      | _ => false
      end
  | _ => true
  end.

(** Every proper prefix of the path leads to a mapping. *)
Definition mappings_along (config : pyval) (keys : list string) : Prop :=
  forall n, n < List.length keys ->
    exists d, resolve config (firstn n keys) = Some (VDict d).

End ConfigSpec.

(** ** The registry *)

Module RegistrySpec.

(** The entry [unload_plugin] logs when [stop] raises. *)
Definition unload_failed (plugin_name : string) (e : exn) : LogEntry :=
  {| level := ERROR; template := "卸载插件 {plugin_name} 失败: {e}";
     args := [VStr plugin_name]; cause := Some e |}.

(** [stop] of a registered plugin returns normally. *)
Definition stops (cfg : pyval) (entry : string * Plugin) : Prop :=
  snd (BasePlugin.stop (cls (snd entry)) cfg (self_ (snd entry))) = Ok tt.

(** [load_plugin] finds a module for the name and a plugin class in it,
    and the constructor returns. *)
Definition loadable (w : World) (plugin_name : string) : Prop :=
  exists module c self,
    files w (PluginManager.path_join PluginManager.plugins_dir
               (plugin_name ++ ".py")) = Some (Ok module)
    /\ PluginManager.find_plugin_class (members module) = Some c
    /\ BasePlugin.new c (config w) = Ok self.

(** One turn of [start_plugins] or [stop_plugins], for the method called
    and the two texts logged; the plugin after the call; the line logged
    for it. *)
Section Lifecycle.

Variable method :
  BasePlugin.class -> pyval -> BasePlugin.instance ->
  BasePlugin.instance * result unit.
Variables done_text failed_text : string.

Definition turn (plugin_name : string) : M unit :=
  try_except
    (invoke plugin_name method ;;
     logger INFO done_text [VStr plugin_name] None)
    (fun e => logger ERROR failed_text [VStr plugin_name] (Some e)).

Definition after (cfg : pyval) (p : Plugin) : Plugin :=
  {| cls := cls p; self_ := fst (method (cls p) cfg (self_ p)) |}.

Definition logged (cfg : pyval) (entry : string * Plugin) : LogEntry :=
  match snd (method (cls (snd entry)) cfg (self_ (snd entry))) with
  | Ok _ => {| level := INFO; template := done_text;
               args := [VStr (fst entry)]; cause := None |}
  | Raise e => {| level := ERROR; template := failed_text;
                  args := [VStr (fst entry)]; cause := Some e |}
  end.

Definition after_all (cfg : pyval) (d : dict Plugin) : dict Plugin :=
  map (fun entry => (fst entry, after cfg (snd entry))) d.

End Lifecycle.

End RegistrySpec.

(** ** The router *)

Module RouterSpec.

(** The plugin a [/]-command addresses and the argument string it carries,
    as the specification words the parsing: the name runs up to the first
    space, the rest is the argument string. *)
Definition addressed_plugin (content : string) : string :=
  hd EmptyString (split_space_once (tail content)).

Definition argument_string (content : string) : string :=
  match split_space_once (tail content) with
  | _ :: c :: _ => c
  | _ => EmptyString
  end.

(** The answer of the router for a name that is not registered. *)
Definition not_loaded_reply (plugin_name : string) : string :=
  "插件 '" ++ plugin_name ++ "' 不存在或未加载。".

(** The lines the router logs. *)
Definition received (content : string) (user_id : pyval) : LogEntry :=
  {| level := INFO; template := "收到文本消息: {content} (来自: {user_id})";
     args := [VStr content; user_id]; cause := None |}.

Definition command_failed (e : exn) : LogEntry :=
  {| level := ERROR; template := "处理插件命令失败: {e}"; args := [];
     cause := Some e |}.

Definition message_failed (e : exn) : LogEntry :=
  {| level := ERROR; template := "处理文本消息失败: {e}"; args := [];
     cause := Some e |}.

(** The plugins keep to the return type [execute_command] has in the
    shipped plugins ([str]) and [_handle_plugin_command] declares
    ([Optional[str]]): a reply that counts as true is text. *)
Definition replies_with_text (w : World) : Prop :=
  forall plugin_name p command kwargs v,
    dict_get plugin_name (plugins w) = Some p ->
    snd (BasePlugin.execute_command (cls p) (config w) (self_ p) command kwargs)
      = Ok v ->
    py_truthy v = true -> exists s, v = VStr s.

End RouterSpec.

(** ** Text *)

Module TextSpec.

(** A byte that occurs in no encoded whitespace character. *)
Definition solid (a : ascii) : bool :=
  negb (existsb (fun w => existsb (Ascii.eqb a) (list_ascii_of_string w))
          whitespace).

Fixpoint has_solid (s : string) : bool :=
  match s with
  | EmptyString => false
  | String a s' => solid a || has_solid s'
  end.

End TextSpec.

(** * The rest of the core *)

(** ** ConfigManager: loading the file *)

Definition set_config (c : pyval) (w : World) : World :=
  {| config := c; plugins := plugins w;
     plugin_modules := plugin_modules w; log := log w; files := files w |}.

Module ConfigFile.

(** [_load_config].  [file] is what is found at [config_path]: [None] when
    [os.path.exists] says no, otherwise what opening the file and
    [yaml.safe_load] give, a value (any value: an empty file gives [None])
    or an exception. *)
Definition _load_config (config_path : string) (file : option (result pyval))
  : M pyval :=
  try_except
    (match file with
     | None =>
         logger WARNING "配置文件 {self.config_path} 不存在，使用默认配置"
           [VStr config_path] None ;;
         ret ConfigManager._get_default_config
     | Some loaded =>
         config <- lift loaded ;;
         logger INFO "配置文件加载成功: {self.config_path}" [VStr config_path] None ;;
         ret config
     end)
    (fun e =>
       logger ERROR "加载配置文件失败: {e}" [] (Some e) ;;
       ret ConfigManager._get_default_config).

(** [__init__]: the attribute [config] is what [_load_config] returns. *)
Definition init (config_path : string) (file : option (result pyval)) : M unit :=
  loaded <- _load_config config_path file ;;
  modify (set_config loaded).

(** [reload] *)
Definition reload (config_path : string) (file : option (result pyval)) : M unit :=
  loaded <- _load_config config_path file ;;
  modify (set_config loaded) ;;
  logger INFO "配置重新加载完成" [] None.

(** [set(key, value)] on the store: the tree is replaced when the
    assignment goes through and is left alone when it raises. *)
Definition set (key : string) (value : pyval) : M unit :=
  fun w =>
    match ConfigManager.set (config w) key value with
    | Ok c => (set_config c w, Ok tt)
    | Raise e => (w, Raise e)
    end.

End ConfigFile.

(** ** ConfigManager: the configuration as objects that can be shared *)

(** [get] and [set] once more, this time over the objects Python works
    with.  A mapping or a list is an object of a store and is held by
    reference, so one mapping can sit under several keys: an anchor and its
    aliases in the YAML file give that, and so does
    [set('a', get('b'))].  [set] assigns into the object it has walked to,
    and the assignment shows under every path that leads to that object. *)

Module ConfigObjects.

(** What a name or a slot of a container holds: a scalar, or the address of
    a container. *)
Inductive rval : Type :=
| RNone
| RBool (b : bool)
| RInt (z : Z)
| RStr (s : string)
| RRef (a : nat).

Inductive obj : Type :=
| ODict (entries : dict rval)
| OList (items : list rval).

(** The store: the object at address [a] is the [a]-th element; a new
    object goes to the end. *)
Definition heap : Type := list obj.

(** Replaces the object at an address. *)
Fixpoint put (a : nat) (o : obj) (h : heap) : heap :=
  match h with
  | [] => []
  | x :: h' =>
      match a with
      | 0 => o :: h'
      | S a' => x :: put a' o h'
      end
  end.

(** [container[k]] *)
Definition getitem (h : heap) (container : rval) (k : string) : result rval :=
  match container with
  | RRef a =>
      match nth_error h a with
      | Some (ODict d) =>
          match dict_get k d with
          | Some v => Ok v
          | None => Raise (KeyError k)
          end
      | _ => Raise TypeError
      end
  | _ => Raise TypeError
  end.

(** [k in container] *)
Definition contains (k : string) (h : heap) (container : rval) : result bool :=
  match container with
  | RRef a =>
      match nth_error h a with
      | Some (ODict d) => Ok (dict_mem k d)
      | Some (OList l) =>
          Ok (existsb (fun x => match x with
                                | RStr s => String.eqb s k
                                | _ => false
                                end) l)
      | None => Raise TypeError
      end
  | RStr s => Ok (str_contains k s)
  | _ => Raise TypeError
  end.

(** [container[k] = v]: the store after the assignment.  The object is
    changed where it is; its address, and so every reference to it, stays. *)
Definition setitem (h : heap) (container : rval) (k : string) (v : rval)
  : result heap :=
  match container with
  | RRef a =>
      match nth_error h a with
      | Some (ODict d) => Ok (put a (ODict (dict_set k v d)) h)
      | _ => Raise TypeError
      end
  | _ => Raise TypeError
  end.

(** The loop [for k in keys: value = value[k]] of [get]. *)
Fixpoint walk (h : heap) (value : rval) (keys : list string) : result rval :=
  match keys with
  | [] => Ok value
  | k :: keys' => rbind (getitem h value k) (fun child => walk h child keys')
  end.

(** [get(key, default)] with [self.config] bound to [config]. *)
Definition get (h : heap) (config : rval) (key : string) (default : rval)
  : result rval :=
  match walk h config (split_on "." key) with
  | Ok value => Ok value
  | Raise (KeyError _) => Ok default
  | Raise TypeError => Ok default
  | Raise e => Raise e
  end.

(** The body of [set] from the cursor [config] on: the loop over
    [keys[:-1]] and the final assignment.  [config[k] = {}] makes a new
    empty mapping and stores its address; when that assignment raises
    nothing refers to the new mapping and it is dropped. *)
Fixpoint set_keys (h : heap) (config : rval) (keys : list string) (value : rval)
  : heap * result unit :=
  match keys with
  | [] => (h, Raise IndexError)
  | [k] =>
      match setitem h config k value with
      | Ok h' => (h', Ok tt)
      | Raise e => (h, Raise e)
      end
  | k :: keys' =>
      match contains k h config with
      | Raise e => (h, Raise e)
      | Ok present =>
          match (if present then Ok h
                 else setitem (h ++ [ODict []])%list config k
                        (RRef (List.length h))) with
          | Raise e => (h, Raise e)
          | Ok h1 =>
              match getitem h1 config k with
              | Raise e => (h1, Raise e)
              | Ok child => set_keys h1 child keys' value
              end
          end
      end
  end.

(** [set(key, value)] with [self.config] bound to [config]. *)
Definition set (h : heap) (config : rval) (key : string) (value : rval)
  : heap * result unit :=
  set_keys h config (split_on "." key) value.

(** A value written out in full (a dict or list display, the result of
    [yaml.safe_load] on a file without aliases): every container is a new
    object, the parts are built before the whole. *)
Fixpoint build (t : pyval) (h : heap) : heap * rval :=
  match t with
  | VNone => (h, RNone)
  | VBool b => (h, RBool b)
  | VInt z => (h, RInt z)
  | VStr s => (h, RStr s)
  | VList items =>
      let '(h1, vs) :=
        (fix build_items (items : list pyval) (h : heap) : heap * list rval :=
           match items with
           | [] => (h, [])
           | x :: items' =>
               let '(h1, v) := build x h in
               let '(h2, vs) := build_items items' h1 in
               (h2, v :: vs)
           end) items h in
      ((h1 ++ [OList vs])%list, RRef (List.length h1))
  | VDict entries =>
      let '(h1, d) :=
        (fix build_entries (entries : list (string * pyval)) (h : heap)
           : heap * dict rval :=
           match entries with
           | [] => (h, [])
           | (k, x) :: entries' =>
               let '(h1, v) := build x h in
               let '(h2, d) := build_entries entries' h1 in
               (h2, (k, v) :: d)
           end) entries h in
      ((h1 ++ [ODict d])%list, RRef (List.length h1))
  end.

(** The objects of the built-in default configuration. *)
Definition default_objects : heap * rval :=
  build ConfigManager._get_default_config [].

(** The objects after [set('a', get('b'))] on [{'b': {'k': 1}}]: the keys
    [a] and [b] hold the same mapping. *)
Definition aliased_objects : heap * rval :=
  let '(h, config) := build (VDict [("b", VDict [("k", VInt 1)])]) [] in
  match get h config "b" RNone with
  | Ok held => (fst (set h config "a" held), config)
  | Raise _ => (h, config)
  end.

End ConfigObjects.

(** ** MessageHandler: the other entry points *)

Module MessageHandlerRest.
Import MessageHandler.

(** [execute_command].  [re.match] raises on a [command] that is not a
    [str]. *)
Definition execute_command (self : handler) (command : pyval) (user_id : pyval)
  : M pyval :=
  try_except
    (match command with
     | VStr s =>
         match first_match command_patterns s with
         | Some h =>
             let mock_msg :=
               VDict [("FromUserName", user_id); ("Text", command)] in
             run_handler h self mock_msg
         | None =>
             plugin_response <- _handle_plugin_command self s user_id ;;
             if py_truthy plugin_response then ret plugin_response
             else ret (VStr "未知命令，输入 '帮助' 查看可用命令。")
         end
     | _ => raise TypeError
     end)
    (fun e =>
       logger ERROR "执行命令失败: {e}" [] (Some e) ;;
       ret (VStr "执行命令时出现错误。")).

(** [_get_plugin] *)
Definition _get_plugin (self : handler) (plugin_name : string)
  : M (option Plugin) :=
  try_except
    (match _get_plugin_manager self with
     | Some _ => PluginManager.get_plugin plugin_name
     | None => ret None
     end)
    (fun e =>
       logger ERROR "获取插件 {plugin_name} 失败: {e}" [VStr plugin_name] (Some e) ;;
       ret None).

(** A method a plugin class may have beyond the contract of
    [BasePlugin]: [handle_file_upload(file_path, file_name, user_id)].
    [None] stands for a class without the attribute. *)
Definition upload_method : Type :=
  BasePlugin.class ->
  option (pyval -> BasePlugin.instance -> pyval -> pyval -> pyval ->
          BasePlugin.instance * result pyval).

(** [file_converter.handle_file_upload(...)] on the object registered as
    [file_converter]. *)
Definition call_upload (upload : upload_method)
  (file_path file_name user_id : pyval) : M pyval :=
  plugin <- PluginManager.get_plugin "file_converter" ;;
  match plugin with
  | None => raise (KeyError "file_converter")
  | Some p =>
      match upload (cls p) with
      | None => raise AttributeError
      | Some method =>
          invoke "file_converter"
            (fun _ cfg self_ => method cfg self_ file_path file_name user_id)
      end
  end.

(** [handle_file_message] *)
Definition handle_file_message (self : handler) (upload : upload_method)
  (msg : pyval) : M pyval :=
  try_except
    (user_id <- lift (py_getitem msg "FromUserName") ;;
     file_name <- lift (py_getitem msg "FileName") ;;
     file_path <- lift (py_getitem msg "Text") ;;
     logger INFO "收到文件: {file_name} (来自: {user_id})" [file_name; user_id] None ;;
     file_converter <- _get_plugin self "file_converter" ;;
     match file_converter with
     | Some _ => call_upload upload file_path file_name user_id
     | None => ret (VStr "文件转换功能暂不可用。")
     end)
    (fun e =>
       logger ERROR "处理文件消息失败: {e}" [] (Some e) ;;
       ret (VStr "抱歉，处理文件时出现错误。")).

End MessageHandlerRest.

(** ** One more plugin to run the host with *)

Module FixturesMore.

(** A plugin that answers with the command string it was given. *)
Definition echo_plugin : BasePlugin.class :=
  {| BasePlugin.new := fun _ => Ok (BasePlugin.init "EchoPlugin");
     BasePlugin.start := fun _ self => (self, Ok tt);
     BasePlugin.stop := fun _ self => (self, Ok tt);
     BasePlugin.execute_command :=
       fun _ self command _ => (self, Ok (VStr command)) |}.

End FixturesMore.

(** ** Vocabulary of the further properties *)

Module HostSpec.

(** A computation keeps a property of the world / always returns. *)
Definition keeps (P : World -> Prop) {A} (c : M A) : Prop :=
  forall w, P w -> P (fst (c w)).

Definition returns {A} (c : M A) : Prop :=
  forall w, exists w' a, c w = (w', Ok a).

(** The two dictionaries of the registry go together: the same names in
    the same order, each once. *)
Definition coherent (w : World) : Prop :=
  NoDup (dict_keys (plugins w))
  /\ dict_keys (plugin_modules w) = dict_keys (plugins w).

(** [load_plugin] would register the name: there is a file, it runs, it
    holds a plugin class and the constructor returns. *)
Definition can_load (w : World) (plugin_name : string) : bool :=
  match files w (PluginManager.path_join PluginManager.plugins_dir
                   (plugin_name ++ ".py")) with
  | Some (Ok module) =>
      match PluginManager.find_plugin_class (members module) with
      | Some c =>
          match BasePlugin.new c (config w) with
          | Ok _ => true
          | Raise _ => false
          end
      | None => false
      end
  | _ => false
  end.

(** The plugin [load_plugin] constructs for the name, when it can. *)
Definition loaded_instance (w : World) (plugin_name : string) : option Plugin :=
  match files w (PluginManager.path_join PluginManager.plugins_dir
                   (plugin_name ++ ".py")) with
  | Some (Ok module) =>
      match PluginManager.find_plugin_class (members module) with
      | Some c =>
          match BasePlugin.new c (config w) with
          | Ok self => Some {| cls := c; self_ := self |}
          | Raise _ => None
          end
      | None => None
      end
  | _ => None
  end.

(** Two paths part ways: at some position they have different segments,
    having agreed before.  Neither is then a prefix of the other. *)
Fixpoint diverge (p q : list string) : bool :=
  match p, q with
  | a :: p', b :: q' => if String.eqb a b then diverge p' q' else true
  | _, _ => false
  end.

(** The path leads to a value, and the value is not [None]. *)
Definition is_set (config : pyval) (key : string) : bool :=
  match ConfigSpec.resolve config (split_on "." key) with
  | Some VNone => false
  | Some _ => true
  | None => false
  end.

(** The line [validate] logs for a required key that is not set. *)
Definition missing_logged (key : string) : LogEntry :=
  {| level := ERROR; template := "缺少必需的配置项: {key}";
     args := [VStr key]; cause := None |}.

(** The names among the items of [plugins.enabled]. *)
Fixpoint names_of (items : list pyval) : list string :=
  match items with
  | [] => []
  | VStr s :: items' => s :: names_of items'
  | _ :: items' => names_of items'
  end.

(** No space in a plugin name. *)
Fixpoint no_space (s : string) : bool :=
  match s with
  | EmptyString => true
  | String c s' => negb (Ascii.eqb c " ") && no_space s'
  end.

End HostSpec.

(** ** Vocabulary: sharing *)

Module SharingSpec.
Import ConfigObjects.

(** [get] on a path already split. *)
Definition read (h : heap) (config : rval) (keys : list string) (default : rval)
  : result rval :=
  match walk h config keys with
  | Ok value => Ok value
  | Raise (KeyError _) => Ok default
  | Raise TypeError => Ok default
  | Raise e => Raise e
  end.

(** The addresses a value and an object hold. *)
Definition addr_of (v : rval) : list nat :=
  match v with
  | RRef a => [a]
  | _ => []
  end.

Definition refs_of (o : obj) : list nat :=
  match o with
  | ODict d => flat_map (fun kv => addr_of (snd kv)) d
  | OList l => flat_map addr_of l
  end.

(** Every reference leads to an object of the store: the references
    stored in the objects, and the one a value holds. *)
Definition Closed (h : heap) : Prop :=
  forall a o b, nth_error h a = Some o -> In b (refs_of o) -> b < List.length h.

Definition within (h : heap) (v : rval) : Prop :=
  forall b, In b (addr_of v) -> b < List.length h.

(** The same as a check, for a store and the root of the configuration. *)
Definition closed (h : heap) (config : rval) : bool :=
  forallb (fun a => Nat.ltb a (List.length h))
    (addr_of config ++ flat_map refs_of h)%list.

(** No mapping is shared: from [config], no two paths lead to the same
    object. *)
Definition unshared (h : heap) (config : rval) : Prop :=
  forall p q a,
    walk h config p = Ok (RRef a) -> walk h config q = Ok (RRef a) -> p = q.

Fixpoint distinct (l : list nat) : bool :=
  match l with
  | [] => true
  | a :: l' => negb (existsb (Nat.eqb a) l') && distinct l'
  end.

(** A check that is enough for [unshared]: no address is stored twice, and
    the address of the root is stored nowhere. *)
Definition linear (h : heap) (config : rval) : bool :=
  distinct (addr_of config ++ flat_map refs_of h)%list.

(** The store in which [set] goes on after [config[k] = {}] on the
    mapping [d] at address [a]. *)
Definition extended (h : heap) (a : nat) (k : string) (d : dict rval) : heap :=
  put a (ODict (dict_set k (RRef (List.length h)) d)) (h ++ [ODict []])%list.

(** The path written as [key] leads to the object at address [a]. *)
Definition leads_to (h : heap) (config : rval) (key : string) (a : nat) : Prop :=
  walk h config (split_on "." key) = Ok (RRef a).

(** The separator does not occur in the string. *)
Fixpoint plain (sep : ascii) (s : string) : bool :=
  match s with
  | EmptyString => true
  | String c s' => negb (Ascii.eqb c sep) && plain sep s'
  end.

End SharingSpec.

(** * Properties *)

(** Runs the host monad one layer down. *)
Ltac run :=
  unfold logger, config_get, bind, try_except, ret, raise, gets, modify, lift;
  cbn [fst snd config plugins plugin_modules log files set_plugins
       set_plugin_modules add_log].

(** ** Dictionaries *)

Section DictFacts.
Context {V : Type}.
Implicit Types (k : string) (v : V) (d : dict V).

Lemma dict_get_set_same k v d : dict_get k (dict_set k v d) = Some v.
Proof.
  induction d as [|[k' v'] d IH]; simpl.
  - now rewrite String.eqb_refl.
  - destruct (String.eqb k k') eqn:E; simpl; rewrite E; auto.
Qed.

Lemma dict_get_set_other k k' v d :
  k <> k' -> dict_get k' (dict_set k v d) = dict_get k' d.
Proof.
  intros N. induction d as [|[k0 v0] d IH]; simpl.
  - destruct (String.eqb k' k) eqn:E; auto.
    apply String.eqb_eq in E. congruence.
  - destruct (String.eqb k k0) eqn:E; simpl.
    + apply String.eqb_eq in E. subst k0.
      destruct (String.eqb k' k) eqn:E'; auto.
      apply String.eqb_eq in E'. congruence.
    + now rewrite IH.
Qed.

Lemma dict_mem_set_same k v d : dict_mem k (dict_set k v d) = true.
Proof. unfold dict_mem. now rewrite dict_get_set_same. Qed.

Lemma dict_get_del_same k d : dict_get k (dict_del k d) = None.
Proof.
  induction d as [|[k' v'] d IH]; simpl; auto.
  destruct (String.eqb k k') eqn:E; simpl; auto. now rewrite E.
Qed.

Lemma dict_keys_del k d :
  dict_keys (dict_del k d) = filter (fun x => negb (String.eqb k x)) (dict_keys d).
Proof.
  induction d as [|[k' v'] d IH]; simpl; auto.
  destruct (String.eqb k k'); simpl; now rewrite <- IH.
Qed.

Lemma dict_del_absent k d : dict_get k d = None -> dict_del k d = d.
Proof.
  induction d as [|[k' v'] d IH]; simpl; auto.
  destruct (String.eqb k k'); simpl; [discriminate|].
  intros H. now rewrite IH.
Qed.

Lemma dict_keys_set_present k v d :
  dict_mem k d = true -> dict_keys (dict_set k v d) = dict_keys d.
Proof.
  unfold dict_mem.
  induction d as [|[k' v'] d IH]; simpl; [discriminate|].
  destruct (String.eqb k k'); simpl; auto.
  intros H. now rewrite IH.
Qed.

Lemma dict_keys_set_absent k v d :
  dict_get k d = None -> dict_keys (dict_set k v d) = (dict_keys d ++ [k])%list.
Proof.
  induction d as [|[k' v'] d IH]; simpl; auto.
  destruct (String.eqb k k'); simpl; [discriminate|].
  intros H. now rewrite IH.
Qed.

Lemma dict_del_set_same k v d : dict_del k (dict_set k v d) = dict_del k d.
Proof.
  induction d as [|[k' v'] d IH]; simpl.
  - now rewrite String.eqb_refl.
  - destruct (String.eqb k k') eqn:E; simpl; rewrite E; simpl; auto.
    now rewrite IH.
Qed.

(** The keys of a dictionary stay distinct under assignment and deletion. *)
Lemma dict_set_keys_nodup k v d :
  NoDup (dict_keys d) -> NoDup (dict_keys (dict_set k v d)).
Proof.
  intros N. destruct (dict_get k d) eqn:E.
  - rewrite dict_keys_set_present; auto. unfold dict_mem. now rewrite E.
  - rewrite dict_keys_set_absent by auto.
    assert (~ In k (dict_keys d)) as NI.
    { clear N. induction d as [|[k' v'] d IH]; simpl in *; auto.
      destruct (String.eqb k k') eqn:E'; [discriminate|].
      apply String.eqb_neq in E'. intros [H|H]; [congruence|]. now apply IH. }
    clear E. revert N NI. generalize (dict_keys d) as l.
    induction l as [|x l IH]; intros N NI; simpl.
    + repeat constructor; auto.
    + inversion N; subst. constructor.
      * intros I. apply in_app_or in I. simpl in *. intuition congruence.
      * apply IH; auto. simpl in NI. tauto.
Qed.

Lemma dict_del_keys_nodup k d :
  NoDup (dict_keys d) -> NoDup (dict_keys (dict_del k d)).
Proof.
  intros N. rewrite dict_keys_del. now apply NoDup_filter.
Qed.

End DictFacts.

(** ** ConfigManager *)

Module ConfigFacts.
Import ConfigManager ConfigSpec.

Lemma split_on_nonempty sep s : split_on sep s <> [].
Proof.
  destruct s as [|c s]; simpl; [discriminate|].
  destruct (Ascii.eqb c sep); [discriminate|].
  destruct (split_on sep s); discriminate.
Qed.

Lemma walk_resolve tree path :
  match resolve tree path with
  | Some v => walk tree path = Ok v
  | None => (exists k, walk tree path = Raise (KeyError k))
            \/ walk tree path = Raise TypeError
  end.
Proof.
  revert tree. induction path as [|k path IH]; intros tree; simpl; auto.
  destruct tree; simpl; auto.
  destruct (dict_get k entries) as [child|]; simpl; eauto.
  apply IH.
Qed.

Lemma get_resolved config key default v :
  resolve config (split_on "." key) = Some v -> get config key default = Ok v.
Proof.
  intros H. unfold get.
  pose proof (walk_resolve config (split_on "." key)) as W.
  rewrite H in W. now rewrite W.
Qed.

Lemma get_total config key default : exists v, get config key default = Ok v.
Proof.
  unfold get.
  pose proof (walk_resolve config (split_on "." key)) as W.
  destruct (resolve config (split_on "." key)) as [v|].
  - rewrite W. eauto.
  - destruct W as [[k W]|W]; rewrite W; eauto.
Qed.

Lemma set_keys_step config k k2 keys value :
  set_keys config (k :: k2 :: keys) value =
  rbind (py_contains k config) (fun present =>
  rbind (if present then Ok config else py_setitem config k (VDict []))
    (fun config1 =>
  rbind (py_getitem config1 k) (fun child =>
  rbind (set_keys child (k2 :: keys) value) (fun child' =>
  py_setitem config1 k child')))).
Proof. reflexivity. Qed.




(** C7.  [get(key, default)] on a path that does not resolve returns the
    default and does not raise.  The path fails to resolve when a segment
    is missing from a mapping, and also when a segment before it leads to
    a value that is not a mapping (a number, a string, a list, [None]). *)
Theorem get_missing_returns_default config key default :
  resolve config (split_on "." key) = None ->
  get config key default = Ok default.
Proof.
  intros H. unfold get.
  pose proof (walk_resolve config (split_on "." key)) as W.
  rewrite H in W. destruct W as [[k W]|W]; now rewrite W.
Qed.

Lemma blocked_false_dict config keys :
  blocked config keys = false -> exists d, config = VDict d.
Proof. destruct config, keys; simpl; try discriminate; eauto. Qed.

Lemma set_keys_clear keys value : forall config,
  keys <> [] -> blocked config keys = false ->
  exists config', set_keys config keys value = Ok config'
                  /\ mappings_along config' keys.
Proof.
  induction keys as [|k keys IH]; intros config NE B; [congruence|].
  destruct (blocked_false_dict _ _ B) as [d ->].
  destruct keys as [|k2 keys].
  - simpl. eexists. split; [reflexivity|].
    intros n Hn. simpl in Hn. assert (n = 0) as -> by lia. simpl. eauto.
  - rewrite set_keys_step. cbn [py_contains rbind].
    assert (exists child, py_getitem
              (if dict_mem k d then VDict d else VDict (dict_set k (VDict []) d)) k
              = Ok child /\ blocked child (k2 :: keys) = false
              /\ exists d1, (if dict_mem k d then VDict d
                             else VDict (dict_set k (VDict []) d)) = VDict d1)
      as (child & Hg & Hb & d1 & Hd1).
    { unfold dict_mem. cbn [blocked] in B.
      destruct (dict_get k d) as [child|] eqn:E.
      - exists child. cbn [py_getitem]. rewrite E. eauto.
      - exists (VDict []). cbn [py_getitem]. rewrite dict_get_set_same.
        split; [reflexivity|]. split; [|eauto].
        destruct keys; reflexivity. }
    destruct (IH child ltac:(discriminate) Hb) as (child' & Hs & Hm).
    replace (if dict_mem k d then Ok (VDict d)
             else py_setitem (VDict d) k (VDict []))
      with (Ok (A := pyval) (if dict_mem k d then VDict d
                else VDict (dict_set k (VDict []) d)))
      by (destruct (dict_mem k d); reflexivity).
    cbn [rbind]. rewrite Hg. cbn [rbind]. rewrite Hs. cbn [rbind].
    rewrite Hd1. cbn [py_setitem]. eexists. split; [reflexivity|].
    intros n Hn. destruct n as [|n]; [simpl; eauto|].
    cbn [firstn resolve]. rewrite dict_get_set_same.
    apply Hm. simpl in Hn |- *. lia.
Qed.

Lemma set_keys_blocked keys value : forall config,
  keys <> [] -> blocked config keys = true ->
  set_keys config keys value = Raise TypeError.
Proof.
  induction keys as [|k keys IH]; intros config NE B; [congruence|].
  destruct keys as [|k2 keys].
  - destruct config; simpl in *; auto; discriminate.
  - rewrite set_keys_step.
    destruct config; cbn [py_contains rbind]; auto.
    + destruct (str_contains k s); reflexivity.
    + destruct (existsb _ items); reflexivity.
    + cbn [blocked] in B. unfold dict_mem.
      destruct (dict_get k entries) as [child|] eqn:E; [|discriminate].
      cbn [rbind py_getitem]. rewrite E. cbn [rbind].
      rewrite (IH child) by (auto; discriminate). reflexivity.
Qed.

(** C6, as the code has it.  [set(key, value)] goes through, and leaves a
    mapping at every proper prefix of the path (the missing ones are
    created), exactly when the root is a mapping and no segment before the
    last one is present with a value that is not a mapping; otherwise it
    raises [TypeError]. *)
Theorem set_succeeds_unless_blocked config key value :
  if blocked config (split_on "." key)
  then set config key value = Raise TypeError
  else exists config',
         set config key value = Ok config'
         /\ mappings_along config' (split_on "." key).
Proof.
  unfold set.
  destruct (blocked config (split_on "." key)) eqn:B.
  - apply set_keys_blocked; auto using split_on_nonempty.
  - apply set_keys_clear; auto using split_on_nonempty.
Qed.

(** C6 as stated fails: [set] raises on a path through
    [wechat.login_timeout], which the default configuration binds to the
    number 300. *)
Lemma set_through_scalar_raises :
  set _get_default_config "wechat.login_timeout.x" (VInt 1) = Raise TypeError.
Proof. reflexivity. Qed.


Lemma get_missing_returns_default_witness :
  get _get_default_config "wechat.login_timeout.seconds" (VInt 7) = Ok (VInt 7).
Proof. apply get_missing_returns_default. reflexivity. Defined.

End ConfigFacts.

(** ** PluginManager *)

Module PluginManagerFacts.
Import PluginManager RegistrySpec.

(** C3, as the code has it.  [unload_plugin(name)] never raises.  For a
    registered name it calls [stop]: when [stop] returns, the entry and its
    module are removed and the result is [True]; when [stop] raises, the
    failure is logged, the result is [False] and the plugin stays
    registered (with whatever [stop] changed before raising).  For a name
    that is not registered the result is [False] and both dictionaries are
    as before. *)
Theorem unload_plugin_removes_unless_stop_raises plugin_name w :
  let (w', r) := unload_plugin plugin_name w in
  match dict_get plugin_name (plugins w) with
  | None =>
      r = Ok false /\ plugins w' = plugins w
      /\ plugin_modules w' = plugin_modules w
  | Some plugin =>
      match BasePlugin.stop (cls plugin) (config w) (self_ plugin) with
      | (_, Ok _) =>
          r = Ok true
          /\ plugins w' = dict_del plugin_name (plugins w)
          /\ plugin_modules w' = dict_del plugin_name (plugin_modules w)
          /\ dict_get plugin_name (plugins w') = None
      | (self', Raise e) =>
          r = Ok false
          /\ plugins w' =
             dict_set plugin_name {| cls := cls plugin; self_ := self' |} (plugins w)
          /\ plugin_modules w' = plugin_modules w
          /\ dict_mem plugin_name (plugins w') = true
          /\ log w' = (log w ++ [unload_failed plugin_name e])%list
      end
  end.
Proof.
  unfold unload_plugin, invoke, dict_mem. run.
  destruct (dict_get plugin_name (plugins w)) as [plugin|] eqn:E.
  - rewrite E.
    destruct (BasePlugin.stop (cls plugin) (config w) (self_ plugin))
      as [self' [u|e]]; run.
    + destruct (dict_get plugin_name (plugin_modules w)) eqn:Em; run;
        rewrite dict_del_set_same, ?dict_get_del_same;
        repeat split; auto.
      now rewrite dict_del_absent.
    + rewrite dict_get_set_same. repeat split; auto.
  - repeat split; auto.
Qed.

(** C3 as stated fails: a registered plugin whose [stop] raises is still
    registered after [unload_plugin]. *)
Lemma unload_keeps_plugin_when_stop_raises :
  let w := Fixtures.world
             [("legacy", Fixtures.instance_of Fixtures.faulty_plugin "FaultyPlugin")] in
  snd (BasePlugin.stop Fixtures.faulty_plugin (config w)
         (BasePlugin.init "FaultyPlugin")) = Raise (RuntimeError "stop failed")
  /\ snd (unload_plugin "legacy" w) = Ok false
  /\ dict_keys (plugins (fst (unload_plugin "legacy" w))) = ["legacy"].
Proof. repeat split; reflexivity. Qed.

(** What [load_plugin] does, by the cause of the failure. *)
Lemma load_plugin_cases plugin_name w :
  let path := path_join plugins_dir (plugin_name ++ ".py") in
  let (w', r) := load_plugin plugin_name w in
  config w' = config w /\ files w' = files w /\
  match files w path with
  | None => r = Ok None /\ plugins w' = plugins w
            /\ plugin_modules w' = plugin_modules w
  | Some (Raise e) => r = Ok None /\ plugins w' = plugins w
                      /\ plugin_modules w' = plugin_modules w
  | Some (Ok module) =>
      match find_plugin_class (members module) with
      | None => r = Ok None /\ plugins w' = plugins w
                /\ plugin_modules w' = plugin_modules w
      | Some c =>
          match BasePlugin.new c (config w) with
          | Raise e => r = Ok None /\ plugins w' = plugins w
                       /\ plugin_modules w' = plugin_modules w
          | Ok self =>
              let p := {| cls := c; self_ := self |} in
              r = Ok (Some p)
              /\ plugins w' = dict_set plugin_name p (plugins w)
              /\ plugin_modules w' = dict_set plugin_name module (plugin_modules w)
          end
      end
  end.
Proof.
  unfold load_plugin. run.
  destruct (files w (path_join plugins_dir (plugin_name ++ ".py")))
    as [[module|e]|]; run; auto.
  destruct (find_plugin_class (members module)) as [c|]; run; auto.
  destruct (BasePlugin.new c (config w)) as [self|e]; run; auto.
Qed.

Lemma load_plugin_returns plugin_name w :
  exists o, snd (load_plugin plugin_name w) = Ok o.
Proof.
  pose proof (load_plugin_cases plugin_name w) as H. cbv zeta in H.
  destruct (load_plugin plugin_name w) as [w' r]. simpl.
  destruct H as (_ & _ & H).
  destruct (files w _) as [[module|e]|]; try (destruct H as [-> _]; eauto).
  destruct (find_plugin_class _); try (destruct H as [-> _]; eauto).
  destruct (BasePlugin.new _ _); destruct H as [-> _]; eauto.
Qed.

(** C4.  [load_plugin] never raises; it fails by returning [None], which
    [load_plugin_cases] shows to happen when there is no file, when
    running the file raises, when the module holds no plugin class and
    when the constructor raises.  Whenever it fails, the dictionary of
    plugin instances and the dictionary of modules are what they were
    before the call. *)
Theorem load_plugin_failure_leaves_registry plugin_name w :
  snd (load_plugin plugin_name w) = Ok None ->
  plugins (fst (load_plugin plugin_name w)) = plugins w
  /\ plugin_modules (fst (load_plugin plugin_name w)) = plugin_modules w.
Proof.
  pose proof (load_plugin_cases plugin_name w) as H. cbv zeta in H.
  destruct (load_plugin plugin_name w) as [w' r]. simpl. intros ->.
  destruct H as (_ & _ & H).
  destruct (files w _) as [[module|e]|]; try tauto.
  destruct (find_plugin_class _); try tauto.
  destruct (BasePlugin.new _ _); try tauto.
  destruct H as [H _]. discriminate.
Qed.

Lemma load_plugin_failure_leaves_registry_witness :
  let w := Fixtures.world
             [("help", Fixtures.instance_of
                         (Fixtures.simple_plugin "HelpPlugin" (VStr "help text"))
                         "HelpPlugin")] in
  plugins (fst (load_plugin "unbuildable" w)) = plugins w
  /\ plugin_modules (fst (load_plugin "unbuildable" w)) = plugin_modules w.
Proof.
  apply (load_plugin_failure_leaves_registry "unbuildable"). reflexivity.
Defined.

End PluginManagerFacts.

Module LoopFacts.
Import PluginManager RegistrySpec PluginManagerFacts.

Section DictAppend.
Context {V : Type}.
Implicit Types (k : string) (v : V) (d : dict V).

Lemma dict_get_app_skip k d1 d2 :
  ~ In k (dict_keys d1) -> dict_get k (d1 ++ d2)%list = dict_get k d2.
Proof.
  induction d1 as [|[k' v'] d1 IH]; simpl; auto.
  intros N. destruct (String.eqb k k') eqn:E.
  - apply String.eqb_eq in E. subst. tauto.
  - apply IH. tauto.
Qed.

Lemma dict_set_app_skip k v d1 d2 :
  ~ In k (dict_keys d1) ->
  dict_set k v (d1 ++ d2)%list = (d1 ++ dict_set k v d2)%list.
Proof.
  induction d1 as [|[k' v'] d1 IH]; simpl; auto.
  intros N. destruct (String.eqb k k') eqn:E.
  - apply String.eqb_eq in E. subst. tauto.
  - rewrite IH; tauto.
Qed.

Lemma dict_del_fresh k d : ~ In k (dict_keys d) -> dict_del k d = d.
Proof.
  induction d as [|[k' v'] d IH]; simpl; auto.
  intros N. destruct (String.eqb k k') eqn:E; simpl.
  - apply String.eqb_eq in E. subst. tauto.
  - rewrite IH; tauto.
Qed.

End DictAppend.

Section Lifecycle.

Variable method :
  BasePlugin.class -> pyval -> BasePlugin.instance ->
  BasePlugin.instance * result unit.
Variables done_text failed_text : string.

Lemma turns_visit_all todo : forall seen w,
  plugins w = (seen ++ todo)%list ->
  NoDup (dict_keys (seen ++ todo)%list) ->
  exists w',
    for_each (dict_keys todo) (turn method done_text failed_text) w = (w', Ok tt)
    /\ plugins w' = (seen ++ after_all method (config w) todo)%list
    /\ log w' = (log w ++ map (logged method done_text failed_text (config w)) todo)%list
    /\ config w' = config w /\ plugin_modules w' = plugin_modules w
    /\ files w' = files w.
Proof.
  induction todo as [|[k p] todo IH]; intros seen w Hp Hn.
  - exists w. simpl. rewrite !app_nil_r in *. repeat split; auto.
  - assert (~ In k (dict_keys seen)) as Hk.
    { unfold dict_keys in Hn. rewrite map_app in Hn. simpl in Hn.
      apply NoDup_remove_2 in Hn. intros I. apply Hn.
      apply in_or_app. auto. }
    assert (forall x : Plugin,
              dict_set k x (plugins w) = ((seen ++ [(k, x)]) ++ todo)%list) as Hset.
    { intros x. rewrite Hp, dict_set_app_skip by auto. cbn [dict_set].
      rewrite String.eqb_refl. now rewrite <- app_assoc. }
    assert (NoDup (dict_keys ((seen ++ [(k, p)]) ++ todo)%list)) as Hn'.
    { now rewrite <- app_assoc. }
    change (dict_keys ((k, p) :: todo)) with (k :: dict_keys todo).
    cbn [for_each].
    unfold bind at 1. unfold turn at 1. unfold invoke. run.
    rewrite Hp, dict_get_app_skip by auto.
    cbn [dict_get]. rewrite String.eqb_refl.
    unfold logged, after_all, after. cbn [map fst snd].
    destruct (method (cls p) (config w) (self_ p)) as [self' [u|e]]; run.
    all: match goal with
         | |- exists w', for_each _ _ ?w1 = _ /\ _ =>
             destruct (IH (seen ++ [(k, {| cls := cls p; self_ := self' |})])%list w1)
               as (w' & Hr & Hps & Hlg & Hc & Hm & Hf);
             [ cbn [plugins set_plugins add_log]; apply Hset
             | unfold dict_keys in *; rewrite !map_app in *; exact Hn'
             | exists w'; rewrite Hr, Hps, Hlg, Hc, Hm, Hf;
               cbn [plugins set_plugins add_log config log plugin_modules files];
               rewrite <- !app_assoc; repeat split; auto ]
         end.
Qed.

Lemma turns_total w :
  NoDup (dict_keys (plugins w)) ->
  exists w',
    for_each (dict_keys (plugins w)) (turn method done_text failed_text) w = (w', Ok tt)
    /\ plugins w' = after_all method (config w) (plugins w)
    /\ log w' = (log w ++ map (logged method done_text failed_text (config w)) (plugins w))%list.
Proof.
  intros Hn.
  destruct (turns_visit_all (plugins w) [] w eq_refl Hn)
    as (w' & Hr & Hp & Hl & _).
  exists w'. auto.
Qed.

End Lifecycle.

(** C9.  [start_plugins] and [stop_plugins] return normally whatever the
    plugins do.  Every registered plugin has had its [start] (its [stop])
    called: the registry afterwards holds each plugin as that call left it,
    and the log has gained one line per plugin, in registry order, an
    error line carrying the exception for those that raised.  The keys of
    the registry are distinct, as those of a dictionary are. *)
Theorem lifecycle_loops_visit_every_plugin w :
  NoDup (dict_keys (plugins w)) ->
  (exists w',
     start_plugins w = (w', Ok tt)
     /\ plugins w' = after_all BasePlugin.start (config w) (plugins w)
     /\ log w' =
        (log w ++ map (logged BasePlugin.start "插件 {plugin_name} 启动成功"
                         "启动插件 {plugin_name} 失败: {e}" (config w))
                      (plugins w))%list)
  /\ (exists w',
        stop_plugins w = (w', Ok tt)
        /\ plugins w' = after_all BasePlugin.stop (config w) (plugins w)
        /\ log w' =
           (log w ++ map (logged BasePlugin.stop "插件 {plugin_name} 停止成功"
                            "停止插件 {plugin_name} 失败: {e}" (config w))
                         (plugins w))%list).
Proof.
  intros Hn. split.
  - apply (turns_total BasePlugin.start _ _ w Hn).
  - apply (turns_total BasePlugin.stop _ _ w Hn).
Qed.

Lemma lifecycle_loops_visit_every_plugin_witness :
  let w := Fixtures.world
             [("a", Fixtures.instance_of Fixtures.faulty_plugin "FaultyPlugin");
              ("b", Fixtures.instance_of
                      (Fixtures.simple_plugin "HelpPlugin" (VStr "help text"))
                      "HelpPlugin")] in
  map (fun entry => BasePlugin.is_running (self_ (snd entry)))
      (plugins (fst (start_plugins w))) = [false; true]
  /\ map level (log (fst (start_plugins w))) = [ERROR; INFO]
  /\ snd (start_plugins w) = Ok tt /\ snd (stop_plugins w) = Ok tt.
Proof.
  intros w.
  destruct (lifecycle_loops_visit_every_plugin w) as [(w1 & H1 & P1 & L1) (w2 & H2 & _)].
  - repeat constructor; simpl; intuition discriminate.
  - rewrite H1, H2. cbn [fst snd]. rewrite P1, L1. repeat split; reflexivity.
Defined.


End LoopFacts.

Module ReloadFacts.
Import PluginManager RegistrySpec PluginManagerFacts LoopFacts.

Lemma unload_plugin_stopped plugin_name w p :
  dict_get plugin_name (plugins w) = Some p ->
  stops (config w) (plugin_name, p) ->
  exists w',
    unload_plugin plugin_name w = (w', Ok true)
    /\ plugins w' = dict_del plugin_name (plugins w)
    /\ config w' = config w /\ files w' = files w.
Proof.
  unfold stops. cbn [fst snd]. intros E Hs.
  unfold unload_plugin, invoke, dict_mem. run. rewrite E. rewrite E.
  destruct (BasePlugin.stop (cls p) (config w) (self_ p)) as [self' r].
  cbn [snd] in Hs. subst r. run.
  destruct (dict_get plugin_name (plugin_modules w)); run;
    eexists; (split; [reflexivity|]); run; rewrite dict_del_set_same; auto.
Qed.

Lemma unload_every todo : forall w,
  plugins w = todo -> NoDup (dict_keys todo) ->
  Forall (stops (config w)) todo ->
  exists w',
    for_each (dict_keys todo)
      (fun plugin_name => _ <- unload_plugin plugin_name ;; ret tt) w
    = (w', Ok tt)
    /\ plugins w' = [] /\ config w' = config w /\ files w' = files w.
Proof.
  induction todo as [|[k p] todo IH]; intros w Hp Hn Hs.
  - exists w. simpl. auto.
  - change (dict_keys ((k, p) :: todo)) with (k :: dict_keys todo) in *.
    cbn [for_each]. unfold bind at 1 2. unfold ret at 1.
    inversion Hs as [|? ? Hk Hrest]; subst.
    inversion Hn as [|? ? Hnotin Hn']; subst.
    destruct (unload_plugin_stopped k w p) as (w1 & -> & U & Fc & Ff); auto.
    { rewrite Hp. cbn [dict_get]. now rewrite String.eqb_refl. }
    assert (plugins w1 = todo) as Hp1.
    { rewrite U, Hp. unfold dict_del. cbn [filter fst].
      rewrite String.eqb_refl. cbn [negb].
      now apply (dict_del_fresh k todo). }
    destruct (IH w1 Hp1 Hn') as (w' & Hr & He & Hc & Hf).
    { now rewrite Fc. }
    exists w'. rewrite Hr, He, Hc, Hf. auto.
Qed.

Lemma load_item_loadable w plugin_name :
  loadable w plugin_name ->
  exists w' p,
    load_item (VStr plugin_name) w = (w', Ok tt)
    /\ plugins w' = dict_set plugin_name p (plugins w)
    /\ config w' = config w /\ files w' = files w.
Proof.
  intros (module & c & self & Hf & Hc & Hi).
  unfold load_item, bind, ret.
  pose proof (load_plugin_cases plugin_name w) as L. cbv zeta in L.
  destruct (load_plugin plugin_name w) as [w' r].
  rewrite Hf, Hc, Hi in L. destruct L as (Lc & Lf & -> & Lp & _).
  eauto 8.
Qed.

(** C8, as the code has it.  With [plugins.enabled] set to
    [["help", "scheduler"]], both plugins loadable, and the [stop] of every
    plugin loaded so far returning normally, [reload_plugins] returns and
    [get_status] then lists exactly [help] and [scheduler], in that order,
    each once: the enabled names are read first, every loaded plugin is
    unloaded, and the names are loaded in the order given. *)
Theorem reload_plugins_loads_enabled_in_order w :
  ConfigManager.get (config w) "plugins.enabled" (VList [])
    = Ok (VList [VStr "help"; VStr "scheduler"]) ->
  loadable w "help" -> loadable w "scheduler" ->
  NoDup (dict_keys (plugins w)) ->
  Forall (stops (config w)) (plugins w) ->
  exists w' status,
    reload_plugins w = (w', Ok tt)
    /\ snd (get_status w') = Ok status
    /\ loaded_plugins status = ["help"; "scheduler"]
    /\ total_plugins status = 2.
Proof.
  intros He Lh Ls Hn Hs.
  unfold reload_plugins.
  unfold bind at 1. unfold logger at 1, modify at 1.
  set (w0 := add_log _ w).
  unfold bind at 1. unfold config_get at 1.
  change (config w0) with (config w). rewrite He.
  unfold bind at 1. unfold gets at 1.
  unfold bind at 1.
  destruct (unload_every (plugins w0) w0 eq_refl Hn Hs)
    as (w1 & Hr & Hp1 & Hc1 & Hf1).
  rewrite Hr.
  unfold bind at 1. unfold lift at 1. cbn [py_iter].
  unfold bind at 1. cbn [for_each]. unfold bind at 1.
  assert (loadable w1 "help") as Lh1.
  { unfold loadable in *. rewrite Hc1, Hf1. exact Lh. }
  destruct (load_item_loadable w1 "help" Lh1) as (w2 & p2 & Hr2 & Hp2 & Hc2 & Hf2).
  rewrite Hr2. unfold bind at 1.
  assert (loadable w2 "scheduler") as Ls2.
  { unfold loadable in *. rewrite Hc2, Hf2, Hc1, Hf1. exact Ls. }
  destruct (load_item_loadable w2 "scheduler" Ls2)
    as (w3 & p3 & Hr3 & Hp3 & Hc3 & Hf3).
  rewrite Hr3. run.
  destruct (ConfigFacts.get_total (config w3) "plugins.enabled" (VList []))
    as [v Hv].
  eexists. eexists. split; [reflexivity|].
  unfold get_status. run. rewrite Hp3, Hp2, Hp1, Hv.
  cbn. auto.
Qed.

(** C8 as stated fails: with the same enabled names and both loads
    succeeding, a plugin loaded before whose [stop] raises survives the
    reload and stays first in the list of loaded names. *)
Lemma reload_plugins_keeps_unstoppable_plugin :
  let w := Fixtures.world
             [("legacy", Fixtures.instance_of Fixtures.faulty_plugin "FaultyPlugin")] in
  ConfigManager.get (config w) "plugins.enabled" (VList [])
    = Ok (VList [VStr "help"; VStr "scheduler"])
  /\ snd (load_plugin "help" w) <> Ok None
  /\ snd (load_plugin "scheduler" w) <> Ok None
  /\ snd (reload_plugins w) = Ok tt
  /\ match snd (get_status (fst (reload_plugins w))) with
     | Ok status => loaded_plugins status = ["legacy"; "help"; "scheduler"]
     | Raise _ => False
     end.
Proof. repeat split; try reflexivity; discriminate. Qed.

Lemma reload_plugins_loads_enabled_in_order_witness :
  let w := Fixtures.world
             [("help", Fixtures.instance_of
                         (Fixtures.simple_plugin "HelpPlugin" (VStr "help text"))
                         "HelpPlugin");
              ("old", Fixtures.instance_of
                        (Fixtures.simple_plugin "OldPlugin" VNone) "OldPlugin")] in
  exists w' status,
    reload_plugins w = (w', Ok tt)
    /\ snd (get_status w') = Ok status
    /\ loaded_plugins status = ["help"; "scheduler"]
    /\ total_plugins status = 2.
Proof.
  apply reload_plugins_loads_enabled_in_order.
  - reflexivity.
  - do 3 eexists. repeat split; reflexivity.
  - do 3 eexists. repeat split; reflexivity.
  - repeat constructor; simpl; intuition discriminate.
  - repeat constructor.
Defined.

End ReloadFacts.

(** ** Text *)

Module TextFacts.
Import TextSpec.

Lemma has_solid_app s t : has_solid (s ++ t) = has_solid s || has_solid t.
Proof.
  induction s as [|a s IH]; simpl; auto. now rewrite IH, orb_assoc.
Qed.

Lemma has_solid_rev s : has_solid (string_rev s) = has_solid s.
Proof.
  induction s as [|a s IH]; simpl; auto.
  rewrite has_solid_app, IH. simpl. now rewrite orb_false_r, orb_comm.
Qed.

Lemma drop_prefix_app w : forall s r, drop_prefix w s = Some r -> s = w ++ r.
Proof.
  induction w as [|a w IH]; intros s r H; simpl in *.
  - now injection H as ->.
  - destruct s as [|b s]; [discriminate|].
    destruct (Ascii.eqb a b) eqn:E; [|discriminate].
    apply Ascii.eqb_eq in E. subst b. f_equal. now apply IH.
Qed.

Lemma drop_any_app ws : forall s r,
  drop_any ws s = Some r -> exists w, In w ws /\ s = w ++ r.
Proof.
  induction ws as [|w ws IH]; intros s r H; simpl in *; [discriminate|].
  destruct (drop_prefix w s) as [r'|] eqn:E.
  - injection H as ->. exists w. split; auto. now apply drop_prefix_app.
  - destruct (IH _ _ H) as (w' & I & ->). eauto.
Qed.

Lemma strip_prefixes_solid ws fuel : forall s,
  forallb (fun w => negb (has_solid w)) ws = true ->
  has_solid s = true -> has_solid (strip_prefixes ws fuel s) = true.
Proof.
  induction fuel as [|fuel IH]; intros s Hws Hs; simpl; auto.
  destruct (drop_any ws s) as [r|] eqn:E; auto.
  apply IH; auto.
  destruct (drop_any_app _ _ _ E) as (w & I & ->).
  rewrite forallb_forall in Hws. specialize (Hws w I).
  rewrite has_solid_app in Hs.
  destruct (has_solid w); [discriminate|]. exact Hs.
Qed.

Lemma strip_solid s : has_solid s = true -> has_solid (strip s) = true.
Proof.
  intros H. unfold strip, rstrip, lstrip.
  rewrite has_solid_rev. apply strip_prefixes_solid; [reflexivity|].
  rewrite has_solid_rev. apply strip_prefixes_solid; [reflexivity|exact H].
Qed.

Lemma strip_nonempty s : has_solid s = true -> strip s <> EmptyString.
Proof.
  intros H E. apply strip_solid in H. rewrite E in H. discriminate.
Qed.

Lemma join_second_solid sep a b l :
  has_solid b = true -> has_solid (join sep (a :: b :: l)) = true.
Proof.
  intros H. cbn [join]. rewrite !has_solid_app.
  destruct l; [|cbn [join]; rewrite has_solid_app]; rewrite H;
    now rewrite ?orb_true_r.
Qed.

Lemma casefold_slash s :
  casefold (String "/" s) = String "/" (casefold s).
Proof. destruct s as [|b [|c s]]; reflexivity. Qed.

Lemma slash_word_differs t w x :
  startswith_slash w = false -> startswith_slash x = false ->
  String.eqb (String "/" t) (w ++ x) = false.
Proof.
  intros Hw Hx. apply String.eqb_neq. intros E.
  destruct w as [|b w]; simpl in E.
  - rewrite <- E in Hx. discriminate.
  - injection E as <- _. discriminate.
Qed.

Lemma re_match_slash words content :
  startswith_slash content = true ->
  forallb (fun w => negb (startswith_slash w)) words = true ->
  re_match words content = false.
Proof.
  intros Hc Hw. destruct content as [|a content]; [discriminate|].
  simpl in Hc. apply Ascii.eqb_eq in Hc. subst a.
  unfold re_match. rewrite casefold_slash.
  induction words as [|w words IH]; cbn [existsb forallb] in *; auto.
  apply andb_prop in Hw. destruct Hw as [Hw1 Hw2].
  rewrite IH by auto.
  apply negb_true_iff in Hw1.
  rewrite (slash_word_differs _ w (bytes [10])) by auto.
  replace w with (w ++ EmptyString) at 1
    by (clear; induction w; simpl; congruence).
  rewrite slash_word_differs by auto. reflexivity.
Qed.

Lemma split_space_once_cons s :
  exists w rest, split_space_once s = w :: rest.
Proof.
  destruct s as [|c s]; simpl; eauto.
  destruct (Ascii.eqb c " "); eauto.
  destruct (split_space_once s); eauto.
Qed.

Lemma truthy_str_nonempty s : py_truthy (VStr s) = true -> s <> EmptyString.
Proof.
  simpl. intros H ->. discriminate.
Qed.

End TextFacts.

(** ** MessageHandler *)

Module MessageHandlerFacts.
Import MessageHandler RouterSpec TextSpec PluginManagerFacts TextFacts.

Lemma default_response_listed self rnd :
  In (_get_default_response self rnd) responses.
Proof.
  unfold _get_default_response. apply nth_In.
  apply Nat.mod_upper_bound. discriminate.
Qed.

Lemma default_response_nonempty self rnd :
  _get_default_response self rnd <> EmptyString.
Proof.
  pose proof (default_response_listed self rnd) as H.
  intros E. rewrite E in H. simpl in H.
  repeat (destruct H as [H|H]; [discriminate|]). exact H.
Qed.

Lemma first_match_slash content :
  startswith_slash content = true ->
  first_match command_patterns content = None.
Proof.
  intros H. unfold command_patterns, first_match.
  rewrite !(re_match_slash _ content H) by reflexivity. reflexivity.
Qed.

(** [_handle_plugin_command] on a [/]-command, with the manager attached. *)
Lemma plugin_command_absent self content user_id w :
  plugin_manager self <> None ->
  startswith_slash content = true ->
  dict_get (addressed_plugin content) (plugins w) = None ->
  _handle_plugin_command self content user_id w
  = (w, Ok (VStr (not_loaded_reply (addressed_plugin content)))).
Proof.
  intros Hm Hc Hd. unfold _handle_plugin_command, addressed_plugin in *.
  rewrite Hc. unfold _get_plugin_manager.
  destruct (plugin_manager self) as [m|]; [|congruence].
  destruct (split_space_once_cons (tail content)) as (n & rest & E).
  rewrite E in *. cbn [hd] in Hd.
  unfold PluginManager.get_plugin. run. now rewrite Hd.
Qed.

Lemma plugin_command_loaded self content user_id w p :
  plugin_manager self <> None ->
  startswith_slash content = true ->
  dict_get (addressed_plugin content) (plugins w) = Some p ->
  _handle_plugin_command self content user_id w
  = let '(self', r) :=
      BasePlugin.execute_command (cls p) (config w) (self_ p)
        (argument_string content) [("user_id", user_id)] in
    let w' := set_plugins
                (dict_set (addressed_plugin content)
                   {| cls := cls p; self_ := self' |}) w in
    match r with
    | Ok v => (w', Ok v)
    | Raise e => (add_log (command_failed e) w', Ok VNone)
    end.
Proof.
  intros Hm Hc Hd.
  unfold _handle_plugin_command, addressed_plugin, argument_string in *.
  rewrite Hc. unfold _get_plugin_manager.
  destruct (plugin_manager self) as [m|]; [|congruence].
  destruct (split_space_once_cons (tail content)) as (n & rest & E).
  rewrite E in *. cbn [hd] in *.
  unfold PluginManager.get_plugin, invoke. run. rewrite Hd. run. rewrite Hd.
  replace (match rest with c :: _ => c | [] => EmptyString end)
    with (match rest with [] => EmptyString | c :: _ => c end) by reflexivity.
  destruct (BasePlugin.execute_command (cls p) (config w) (self_ p) _ _)
    as [self' [v|e]]; reflexivity.
Qed.

(** [_handle_plugin_command] never raises, and under [replies_with_text]
    a truthy result is text. *)
Lemma plugin_command_total self content user_id w :
  exists w' v,
    _handle_plugin_command self content user_id w = (w', Ok v)
    /\ (replies_with_text w -> py_truthy v = true -> exists s, v = VStr s).
Proof.
  destruct (startswith_slash content) eqn:Hc.
  2:{ unfold _handle_plugin_command. rewrite Hc. run.
      do 2 eexists. split; [reflexivity|]. discriminate. }
  destruct (plugin_manager self) as [m|] eqn:Hm.
  2:{ unfold _handle_plugin_command, _get_plugin_manager. rewrite Hc, Hm.
      destruct (split_space_once (tail content)); run;
        do 2 eexists; (split; [reflexivity|discriminate]). }
  assert (plugin_manager self <> None) as Hm' by congruence.
  destruct (dict_get (addressed_plugin content) (plugins w)) as [p|] eqn:Hd.
  - rewrite (plugin_command_loaded _ _ _ _ p Hm' Hc Hd).
    destruct (BasePlugin.execute_command (cls p) (config w) (self_ p)
                (argument_string content) [("user_id", user_id)])
      as [self' [v|e]] eqn:He.
    + do 2 eexists. split; [reflexivity|]. intros Ht T.
      eapply (Ht (addressed_plugin content) p); eauto. now rewrite He.
    + do 2 eexists. split; [reflexivity|]. discriminate.
  - rewrite (plugin_command_absent _ _ _ _ Hm' Hc Hd).
    do 2 eexists. split; [reflexivity|]. eauto.
Qed.

Lemma help_nonempty : strip help_text <> EmptyString.
Proof. vm_compute. discriminate. Qed.

Lemma fold_lines_solid (l : dict PluginManager.PluginDetails) : forall init,
  has_solid init = true ->
  has_solid
    (fold_left (fun text '(name, details) => text ++ plugin_lines details)
       l init) = true.
Proof.
  induction l as [|[n d] l IH]; intros init H; simpl; auto.
  apply IH. rewrite has_solid_app, H. reflexivity.
Qed.

(** Every system command answers with text that is not empty. *)
Lemma run_handler_replies h self msg w :
  exists w' s, run_handler h self msg w = (w', Ok (VStr s)) /\ s <> EmptyString.
Proof.
  destruct h; cbn [run_handler].
  - unfold _handle_help. run. do 2 eexists. split; [reflexivity|].
    apply help_nonempty.
  - unfold _handle_status, _get_plugin_manager.
    destruct (plugin_manager self).
    2:{ run. do 2 eexists. split; [reflexivity|discriminate]. }
    unfold PluginManager.get_status, config_validate. run.
    destruct (ConfigFacts.get_total (config w) "plugins.enabled" (VList []))
      as [v ->].
    destruct (ConfigManager.first_missing (config w) ConfigManager.required_keys)
      as [[key|]|e]; run.
    + do 2 eexists. split; [reflexivity|].
      apply strip_nonempty. unfold lines. now apply join_second_solid.
    + do 2 eexists. split; [reflexivity|].
      apply strip_nonempty. unfold lines. now apply join_second_solid.
    + do 2 eexists. split; [reflexivity|discriminate].
  - unfold _handle_plugins, _get_plugin_manager.
    destruct (plugin_manager self).
    2:{ run. do 2 eexists. split; [reflexivity|discriminate]. }
    unfold PluginManager.get_status. run.
    destruct (ConfigFacts.get_total (config w) "plugins.enabled" (VList []))
      as [v ->].
    do 2 eexists. split; [reflexivity|].
    apply strip_nonempty. apply fold_lines_solid. reflexivity.
  - unfold _handle_reload, _get_plugin_manager.
    destruct (plugin_manager self).
    2:{ run. do 2 eexists. split; [reflexivity|discriminate]. }
    run. destruct (PluginManager.reload_plugins w) as [w' [u|e]].
    + do 2 eexists. split; [reflexivity|discriminate].
    + do 2 eexists. split; [reflexivity|discriminate].
Qed.

End MessageHandlerFacts.

Module RouterFacts.
Import MessageHandler RouterSpec TextSpec PluginManagerFacts TextFacts MessageHandlerFacts.

(** [handle_text_message] on a well-formed message whose text is a
    [/]-command: the reply is the truthy answer of
    [_handle_plugin_command], or else a default response. *)
Lemma handle_slash_message self msg rnd w user_id text :
  py_getitem msg "FromUserName" = Ok user_id ->
  py_getitem msg "Text" = Ok (VStr text) ->
  startswith_slash (strip text) = true ->
  handle_text_message self msg rnd w
  = match _handle_plugin_command self (strip text) user_id
            (add_log (received (strip text) user_id) w) with
    | (w', Ok v) =>
        (w', Ok (if py_truthy v then v
                 else VStr (_get_default_response self rnd)))
    | (w', Raise e) =>
        (add_log (message_failed e) w', Ok (VStr "抱歉，处理消息时出现错误。"))
    end.
Proof.
  intros Hu Ht Hc. unfold handle_text_message. run.
  rewrite Hu, Ht. cbn [py_strip]. rewrite (first_match_slash _ Hc).
  fold (received (strip text) user_id).
  destruct (_handle_plugin_command self (strip text) user_id _)
    as [w' [v|e]]; [|reflexivity].
  destruct (py_truthy v); reflexivity.
Qed.

(** The reply to a [/]-command addressed to a loaded plugin. *)
Lemma routed_reply self msg rnd w user_id text p :
  plugin_manager self <> None ->
  py_getitem msg "FromUserName" = Ok user_id ->
  py_getitem msg "Text" = Ok (VStr text) ->
  startswith_slash (strip text) = true ->
  dict_get (addressed_plugin (strip text)) (plugins w) = Some p ->
  snd (handle_text_message self msg rnd w)
  = Ok match snd (BasePlugin.execute_command (cls p) (config w) (self_ p)
                    (argument_string (strip text)) [("user_id", user_id)]) with
       | Ok v => if py_truthy v then v
                 else VStr (_get_default_response self rnd)
       | Raise _ => VStr (_get_default_response self rnd)
       end.
Proof.
  intros Hm Hu Ht Hc Hd.
  rewrite (handle_slash_message _ _ _ _ _ _ Hu Ht Hc).
  rewrite (plugin_command_loaded _ _ _ _ p Hm Hc) by exact Hd.
  cbn [config add_log].
  destruct (BasePlugin.execute_command (cls p) (config w) (self_ p) _ _)
    as [self' [v|e]]; reflexivity.
Qed.

(** Whatever the plugins do, [handle_text_message] returns normally and
    its reply counts as true; when the plugins answer with text the reply
    is a string. *)
Lemma handle_text_message_total self msg rnd w :
  exists w' v,
    handle_text_message self msg rnd w = (w', Ok v)
    /\ py_truthy v = true
    /\ (replies_with_text w -> exists s, v = VStr s).
Proof.
  unfold handle_text_message. run.
  destruct (py_getitem msg "FromUserName") as [user_id|e];
    [|do 2 eexists; repeat split; eauto].
  destruct (py_getitem msg "Text") as [text|e];
    [|do 2 eexists; repeat split; eauto].
  destruct (py_strip text) as [content|e];
    [|do 2 eexists; repeat split; eauto].
  set (w0 := add_log _ w).
  destruct (first_match command_patterns content) as [h|].
  - destruct (run_handler_replies h self msg w0) as (w' & s & -> & Hs).
    do 2 eexists. repeat split; eauto.
    simpl. destruct s; [congruence|reflexivity].
  - destruct (plugin_command_total self content user_id w0)
      as (w' & v & -> & Hv).
    destruct (py_truthy v) eqn:T.
    + do 2 eexists. repeat split; eauto.
    + do 2 eexists. repeat split; eauto.
      pose proof (default_response_nonempty self rnd) as N.
      simpl. destruct (_get_default_response self rnd); [congruence|reflexivity].
Qed.

(** C1, as the code has it.  For every message (any value, well-formed
    or not) and every state of the host, [handle_text_message] returns
    normally and its reply counts as true: it is not [None] and not the
    empty string.  Where the plugins answer with text
    ([replies_with_text]) the reply is a string that is not empty.  When
    the message is a [/]-command addressed to a loaded plugin and the
    plugin's [execute_command] raises, the exception stops at the router
    and the reply is the default response; when it returns a value that
    counts as true, the router hands that value on as it is, whatever its
    type. *)
Theorem handle_text_message_always_replies self msg rnd w :
  (exists w' v,
     handle_text_message self msg rnd w = (w', Ok v)
     /\ py_truthy v = true
     /\ (replies_with_text w -> exists s, v = VStr s /\ s <> EmptyString))
  /\ (forall user_id text p e,
        plugin_manager self <> None ->
        py_getitem msg "FromUserName" = Ok user_id ->
        py_getitem msg "Text" = Ok (VStr text) ->
        startswith_slash (strip text) = true ->
        dict_get (addressed_plugin (strip text)) (plugins w) = Some p ->
        snd (BasePlugin.execute_command (cls p) (config w) (self_ p)
               (argument_string (strip text)) [("user_id", user_id)])
          = Raise e ->
        snd (handle_text_message self msg rnd w)
          = Ok (VStr (_get_default_response self rnd)))
  /\ (forall user_id text p v,
        plugin_manager self <> None ->
        py_getitem msg "FromUserName" = Ok user_id ->
        py_getitem msg "Text" = Ok (VStr text) ->
        startswith_slash (strip text) = true ->
        dict_get (addressed_plugin (strip text)) (plugins w) = Some p ->
        snd (BasePlugin.execute_command (cls p) (config w) (self_ p)
               (argument_string (strip text)) [("user_id", user_id)])
          = Ok v ->
        py_truthy v = true ->
        snd (handle_text_message self msg rnd w) = Ok v).
Proof.
  split; [|split].
  - destruct (handle_text_message_total self msg rnd w)
      as (w' & v & Hr & T & Hs).
    exists w', v. split; [exact Hr|]. split; [exact T|].
    intros Hrt. destruct (Hs Hrt) as [s ->].
    exists s. split; [reflexivity|]. now apply truthy_str_nonempty.
  - intros user_id text p e Hm Hu Ht Hc Hd He.
    rewrite (routed_reply _ _ _ _ _ _ p Hm Hu Ht Hc Hd). now rewrite He.
  - intros user_id text p v Hm Hu Ht Hc Hd He T.
    rewrite (routed_reply _ _ _ _ _ _ p Hm Hu Ht Hc Hd). now rewrite He, T.
Qed.

(** C1 as stated fails for a plugin whose answer is not text: the plugin
    answers a command with the number 42, the router hands the number on,
    and what [handle_text_message] returns is no string. *)
Lemma reply_of_other_type_is_passed_on :
  snd (handle_text_message Fixtures.wired
         (Fixtures.text_message "alice" "/calc 6*7") 0
         (Fixtures.world
            [("calc", Fixtures.instance_of
                        (Fixtures.simple_plugin "CalcPlugin" (VInt 42))
                        "CalcPlugin")]))
  = Ok (VInt 42)
  /\ ~ (exists w' s,
          handle_text_message Fixtures.wired
            (Fixtures.text_message "alice" "/calc 6*7") 0
            (Fixtures.world
               [("calc", Fixtures.instance_of
                           (Fixtures.simple_plugin "CalcPlugin" (VInt 42))
                           "CalcPlugin")])
          = (w', Ok (VStr s))
          /\ s <> EmptyString).
Proof.
  split; [reflexivity|].
  intros (w' & s & H & _). apply (f_equal snd) in H.
  cbn [snd] in H. discriminate H.
Qed.

Lemma not_loaded_reply_nonempty plugin_name :
  not_loaded_reply plugin_name <> EmptyString.
Proof. discriminate. Qed.

(** C2, as the code has it.  For a [/]-command addressed to a name that
    is not registered, the router does not raise: [_handle_plugin_command]
    and [handle_text_message] both answer with the text saying that the
    plugin does not exist or is not loaded, which is not empty, and the
    state is untouched but for the log line of the message.  The
    registry's own [execute_plugin_command] raises [ValueError] for such a
    name. *)
Theorem absent_plugin_is_reported self msg rnd w user_id text :
  plugin_manager self <> None ->
  py_getitem msg "FromUserName" = Ok user_id ->
  py_getitem msg "Text" = Ok (VStr text) ->
  startswith_slash (strip text) = true ->
  dict_get (addressed_plugin (strip text)) (plugins w) = None ->
  let plugin_name := addressed_plugin (strip text) in
  not_loaded_reply plugin_name <> EmptyString
  /\ _handle_plugin_command self (strip text) user_id w
     = (w, Ok (VStr (not_loaded_reply plugin_name)))
  /\ handle_text_message self msg rnd w
     = (add_log (received (strip text) user_id) w,
        Ok (VStr (not_loaded_reply plugin_name)))
  /\ forall command kwargs,
       PluginManager.execute_plugin_command plugin_name command kwargs w
       = (w, Raise (ValueError ("插件 " ++ plugin_name ++ " 不存在"))).
Proof.
  intros Hm Hu Ht Hc Hd plugin_name. subst plugin_name.
  split; [apply not_loaded_reply_nonempty|].
  split; [now apply plugin_command_absent|].
  split.
  - rewrite (handle_slash_message _ _ _ _ _ _ Hu Ht Hc).
    rewrite plugin_command_absent by auto. reflexivity.
  - intros command kwargs.
    unfold PluginManager.execute_plugin_command, PluginManager.get_plugin.
    run. now rewrite Hd.
Qed.

(** C2 as stated fails for the dispatch of the registry: on a name that
    is not registered, [execute_plugin_command] raises to its caller. *)
Lemma execute_plugin_command_raises_for_absent_plugin :
  dict_get "ghost" (plugins (Fixtures.world [])) = None
  /\ snd (PluginManager.execute_plugin_command "ghost" "status" []
            (Fixtures.world []))
     = Raise (ValueError "插件 ghost 不存在").
Proof. split; reflexivity. Qed.

(** C10.  For a [/]-command addressed to a loaded plugin whose
    [execute_command] returns a value that counts as false (the empty
    string, [None], [0], [False], an empty list or mapping), the router
    drops the reply and answers with one of its four default responses,
    as it does for text that is no plugin command. *)
Theorem falsy_reply_gets_default_response self msg rnd w user_id text p self' v :
  plugin_manager self <> None ->
  py_getitem msg "FromUserName" = Ok user_id ->
  py_getitem msg "Text" = Ok (VStr text) ->
  startswith_slash (strip text) = true ->
  dict_get (addressed_plugin (strip text)) (plugins w) = Some p ->
  BasePlugin.execute_command (cls p) (config w) (self_ p)
    (argument_string (strip text)) [("user_id", user_id)] = (self', Ok v) ->
  py_truthy v = false ->
  snd (handle_text_message self msg rnd w)
    = Ok (VStr (_get_default_response self rnd))
  /\ In (_get_default_response self rnd) responses
  /\ List.length responses = 4.
Proof.
  intros Hm Hu Ht Hc Hd He Hv.
  rewrite (routed_reply _ _ _ _ _ _ p Hm Hu Ht Hc Hd), He. cbn [snd].
  rewrite Hv. split; [reflexivity|]. split; [|reflexivity].
  apply default_response_listed.
Qed.

Lemma handle_text_message_always_replies_witness :
  let w := Fixtures.world
             [("broken", Fixtures.instance_of Fixtures.faulty_plugin "FaultyPlugin")] in
  let msg := Fixtures.text_message "alice" "/broken run" in
  (exists w' s,
     handle_text_message Fixtures.wired msg 1 w = (w', Ok (VStr s))
     /\ s <> EmptyString)
  /\ snd (handle_text_message Fixtures.wired msg 1 w)
     = Ok (VStr "请发送文件或输入命令，我会为您处理！").
Proof.
  intros w msg.
  assert (replies_with_text w) as Hrt.
  { intros n p command kwargs v Hd He.
    simpl in Hd. destruct (String.eqb n "broken"); [|discriminate].
    injection Hd as <-. discriminate. }
  destruct (handle_text_message_always_replies Fixtures.wired msg 1 w)
    as [(w' & v & Hr & _ & Hs) [Hb _]].
  split.
  - destruct (Hs Hrt) as (s & -> & Ns). now exists w', s.
  - apply (Hb (VStr "alice") "/broken run"
              (Fixtures.instance_of Fixtures.faulty_plugin "FaultyPlugin")
              (NotImplementedError "插件 FaultyPlugin 不支持命令执行"));
      try reflexivity.
    discriminate.
Defined.

Lemma absent_plugin_is_reported_witness :
  handle_text_message Fixtures.wired
    (Fixtures.text_message "alice" " /ghost do it ") 0 (Fixtures.world [])
  = (add_log (received "/ghost do it" (VStr "alice")) (Fixtures.world []),
     Ok (VStr "插件 'ghost' 不存在或未加载。")).
Proof.
  refine (proj1 (proj2 (proj2
    (absent_plugin_is_reported Fixtures.wired
       (Fixtures.text_message "alice" " /ghost do it ") 0 (Fixtures.world [])
       (VStr "alice") " /ghost do it " _ _ _ _ _)))); try reflexivity.
  discriminate.
Defined.

Lemma falsy_reply_gets_default_response_witness :
  snd (handle_text_message Fixtures.wired
         (Fixtures.text_message "alice" "/quiet status") 6
         (Fixtures.world
            [("quiet", Fixtures.instance_of
                         (Fixtures.simple_plugin "QuietPlugin" (VStr EmptyString))
                         "QuietPlugin")]))
  = Ok (VStr "输入 '帮助' 查看所有可用功能。").
Proof.
  refine (proj1
    (falsy_reply_gets_default_response Fixtures.wired
       (Fixtures.text_message "alice" "/quiet status") 6 _
       (VStr "alice") "/quiet status"
       (Fixtures.instance_of (Fixtures.simple_plugin "QuietPlugin" (VStr EmptyString))
          "QuietPlugin")
       (BasePlugin.init "QuietPlugin") (VStr EmptyString) _ _ _ _ _ _ _));
    try reflexivity.
  discriminate.
Defined.

End RouterFacts.

(** * Further properties *)

(** ** The configuration store *)

Module ConfigMore.
Import ConfigManager ConfigSpec HostSpec ConfigFacts.


Lemma dict_set_present_same {V} k (v : V) d :
  dict_get k d = Some v -> dict_set k v d = d.
Proof.
  induction d as [|[k' v'] d IH]; simpl; [discriminate|].
  destruct (String.eqb k k') eqn:E.
  - intros H. injection H as ->. reflexivity.
  - intros H. now rewrite IH.
Qed.






Lemma is_set_get config key :
  get config key VNone =
  if is_set config key
  then match resolve config (split_on "." key) with
       | Some v => Ok v
       | None => Ok VNone
       end
  else Ok VNone.
Proof.
  unfold is_set.
  destruct (resolve config (split_on "." key)) as [v|] eqn:R.
  - rewrite (get_resolved _ _ _ _ R). destruct v; reflexivity.
  - unfold get. pose proof (walk_resolve config (split_on "." key)) as W.
    rewrite R in W. destruct W as [[k W]|W]; now rewrite W.
Qed.

Lemma first_missing_spec config keys :
  first_missing config keys =
  Ok (find (fun key => negb (is_set config key)) keys).
Proof.
  induction keys as [|key keys IH]; cbn [first_missing find]; auto.
  rewrite is_set_get.
  destruct (is_set config key) eqn:S; cbn [negb rbind].
  - unfold is_set in S.
    destruct (resolve config (split_on "." key)) as [[]|];
      try discriminate; cbn [rbind is_none]; apply IH.
  - reflexivity.
Qed.

(** X3.  [validate] never raises and answers [True] exactly when each of
    the five required keys leads to a value other than [None].  It
    changes nothing but the log: no line when the answer is [True], one
    error line naming the first required key not set when it is
    [False]. *)
Theorem validate_checks_required_keys w :
  let (w', r) := config_validate w in
  r = Ok (forallb (is_set (config w)) required_keys)
  /\ config w' = config w /\ plugins w' = plugins w
  /\ plugin_modules w' = plugin_modules w
  /\ match find (fun key => negb (is_set (config w) key)) required_keys with
     | None => log w' = log w
     | Some key => log w' = (log w ++ [missing_logged key])%list
     end.
Proof.
  unfold config_validate. run.
  rewrite first_missing_spec. cbn [rbind].
  assert (forall keys,
            forallb (is_set (config w)) keys =
            match find (fun key => negb (is_set (config w) key)) keys with
            | None => true | Some _ => false end) as F.
  { induction keys as [|k keys IH]; simpl; auto.
    destruct (is_set (config w) k); simpl; auto. }
  rewrite F.
  destruct (find _ required_keys) as [key|]; run;
    repeat split; auto.
Qed.

(** X5.  A root that is not a mapping (an empty configuration file gives
    [None]): every [get] returns its default, every [set] raises
    [TypeError] and leaves the store as it is, and [validate] answers
    [False]. *)
Theorem root_that_is_no_mapping w key default value :
  (forall d, config w <> VDict d) ->
  get (config w) key default = Ok default
  /\ ConfigFile.set key value w = (w, Raise TypeError)
  /\ snd (config_validate w) = Ok false.
Proof.
  intros N.
  assert (forall keys, keys <> [] -> resolve (config w) keys = None) as R.
  { intros [|k keys] NE; [congruence|]. destruct (config w); auto.
    now destruct (N entries). }
  assert (forall keys, keys <> [] -> blocked (config w) keys = true) as B.
  { intros [|k keys] NE; [congruence|]. destruct (config w); auto.
    now destruct (N entries). }
  split; [|split].
  - unfold get. pose proof (walk_resolve (config w) (split_on "." key)) as W.
    rewrite R in W by apply split_on_nonempty.
    destruct W as [[k W]|W]; now rewrite W.
  - unfold ConfigFile.set, set.
    rewrite set_keys_blocked; auto using split_on_nonempty.
  - unfold config_validate. run. rewrite first_missing_spec.
    unfold is_set. cbn [find required_keys].
    rewrite R by apply split_on_nonempty. reflexivity.
Qed.

Lemma root_that_is_no_mapping_witness :
  let w := set_config VNone (Fixtures.world []) in
  get (config w) "logging.level" (VStr "INFO") = Ok (VStr "INFO")
  /\ ConfigFile.set "logging.level" (VStr "DEBUG") w = (w, Raise TypeError)
  /\ snd (config_validate w) = Ok false.
Proof. apply root_that_is_no_mapping. discriminate. Defined.

(** X4.  A configuration file that is missing, or that cannot be opened
    or parsed, gives the built-in default tree, both at construction and
    on [reload], and that tree passes [validate]; a file that parses gives
    the parsed value as it is.  Neither call raises, and the registry is
    not touched. *)
Theorem load_falls_back_to_default config_path file w :
  let loaded := match file with
                | Some (Ok v) => v
                | _ => _get_default_config
                end in
  let w1 := fst (ConfigFile.init config_path file w) in
  let w2 := fst (ConfigFile.reload config_path file w) in
  snd (ConfigFile.init config_path file w) = Ok tt
  /\ snd (ConfigFile.reload config_path file w) = Ok tt
  /\ config w1 = loaded /\ config w2 = loaded
  /\ plugins w1 = plugins w /\ plugins w2 = plugins w
  /\ match file with
     | Some (Ok _) => True
     | _ => snd (config_validate w1) = Ok true
            /\ snd (config_validate w2) = Ok true
     end.
Proof.
  unfold ConfigFile.init, ConfigFile.reload, ConfigFile._load_config,
    config_validate.
  destruct file as [[v|e]|]; run; repeat split; reflexivity.
Qed.

End ConfigMore.

(** ** The configuration store over shared objects *)

Module SharingFacts.
Import HostSpec ConfigObjects SharingSpec ConfigFacts.

(** *** The store *)

Lemma put_length a o h : List.length (put a o h) = List.length h.
Proof.
  revert a. induction h as [|x h IH]; intros [|a]; simpl; auto.
Qed.

Lemma nth_put_same a o h :
  a < List.length h -> nth_error (put a o h) a = Some o.
Proof.
  revert a. induction h as [|x h IH]; intros [|a] L; simpl in *; try lia; auto.
  apply IH. lia.
Qed.

Lemma nth_put_other a b o h :
  a <> b -> nth_error (put a o h) b = nth_error h b.
Proof.
  revert a b.
  induction h as [|x h IH]; intros [|a] [|b] N; simpl; try congruence.
  apply IH. congruence.
Qed.

Lemma nth_some_lt {A} (l : list A) n x : nth_error l n = Some x -> n < List.length l.
Proof. intros H. apply nth_error_Some. congruence. Qed.

(** *** What [set_keys] does, level by level *)

Lemma set_keys_unfold h config k k2 keys value :
  set_keys h config (k :: k2 :: keys) value =
  match contains k h config with
  | Raise e => (h, Raise e)
  | Ok present =>
      match (if present then Ok h
             else setitem (h ++ [ODict []])%list config k
                    (RRef (List.length h))) with
      | Raise e => (h, Raise e)
      | Ok h1 =>
          match getitem h1 config k with
          | Raise e => (h1, Raise e)
          | Ok child => set_keys h1 child (k2 :: keys) value
          end
      end
  end.
Proof. reflexivity. Qed.

Lemma extended_at h a k d :
  nth_error h a = Some (ODict d) ->
  nth_error (extended h a k d) a
  = Some (ODict (dict_set k (RRef (List.length h)) d)).
Proof.
  intros E. assert (a < List.length h) as L by (eapply nth_some_lt; eauto).
  unfold extended. apply nth_put_same. rewrite length_app. lia.
Qed.

Lemma set_keys_last h config k value h' :
  set_keys h config [k] value = (h', Ok tt) ->
  exists a d,
    config = RRef a /\ nth_error h a = Some (ODict d)
    /\ h' = put a (ODict (dict_set k value d)) h.
Proof.
  cbn [set_keys]. unfold setitem.
  destruct config as [| | | |a]; try discriminate.
  destruct (nth_error h a) as [[d|l]|] eqn:E; try discriminate.
  intros H. injection H as <-. eauto.
Qed.

Lemma set_keys_descends h config k k2 keys value h' :
  set_keys h config (k :: k2 :: keys) value = (h', Ok tt) ->
  exists a d,
    config = RRef a /\ nth_error h a = Some (ODict d)
    /\ match dict_get k d with
       | Some child => set_keys h child (k2 :: keys) value = (h', Ok tt)
       | None =>
           set_keys (extended h a k d) (RRef (List.length h)) (k2 :: keys) value
           = (h', Ok tt)
       end.
Proof.
  rewrite set_keys_unfold. unfold contains, setitem. intros H.
  destruct config as [| | |s|a]; try discriminate.
  - destruct (str_contains k s); cbn [getitem] in H; discriminate.
  - destruct (nth_error h a) as [[d|l]|] eqn:E; try discriminate.
    + unfold dict_mem in H. exists a, d. split; [reflexivity|].
      split; [exact E|].
      destruct (dict_get k d) as [child|] eqn:G; cbv beta iota in H.
      * unfold getitem in H. rewrite E, G in H. exact H.
      * assert (a < List.length h) as L by (eapply nth_some_lt; eauto).
        rewrite nth_error_app1, E in H by exact L.
        fold (extended h a k d) in H. unfold getitem in H.
        rewrite (extended_at _ _ k _ E), dict_get_set_same in H. exact H.
    + destruct (existsb _ l).
      * unfold getitem in H. rewrite E in H. discriminate.
      * assert (a < List.length h) as L by (eapply nth_some_lt; eauto).
        rewrite nth_error_app1, E in H by exact L. discriminate.
Qed.

(** *** Reading *)

Lemma walk_cons h a d k keys :
  nth_error h a = Some (ODict d) ->
  walk h (RRef a) (k :: keys) =
  match dict_get k d with
  | Some child => walk h child keys
  | None => Raise (KeyError k)
  end.
Proof.
  intros E. cbn [walk]. unfold getitem. rewrite E.
  destruct (dict_get k d); reflexivity.
Qed.

Lemma read_cons h a d k keys default :
  nth_error h a = Some (ODict d) ->
  read h (RRef a) (k :: keys) default =
  match dict_get k d with
  | Some child => read h child keys default
  | None => Ok default
  end.
Proof.
  intros E. unfold read. rewrite (walk_cons _ _ _ _ _ E).
  destruct (dict_get k d); reflexivity.
Qed.

Lemma getitem_ok h config k v :
  getitem h config k = Ok v ->
  exists a d,
    config = RRef a /\ nth_error h a = Some (ODict d) /\ dict_get k d = Some v.
Proof.
  unfold getitem. destruct config as [| | | |a]; try discriminate.
  destruct (nth_error h a) as [[d|l]|] eqn:E; try discriminate.
  destruct (dict_get k d) as [x|] eqn:G; try discriminate.
  intros H. injection H as <-. eauto.
Qed.

(** Reading sees only the objects on its way. *)
Lemma walk_frame h h' q : forall config,
  (forall q1 q2 b,
     q = (q1 ++ q2)%list -> q2 <> [] ->
     walk h config q1 = Ok (RRef b) -> nth_error h' b = nth_error h b) ->
  walk h' config q = walk h config q.
Proof.
  induction q as [|k q IH]; intros config F; [reflexivity|].
  cbn [walk].
  assert (getitem h' config k = getitem h config k) as G.
  { destruct config as [| | | |a]; try reflexivity.
    unfold getitem. rewrite (F [] (k :: q) a); auto. discriminate. }
  rewrite G. destruct (getitem h config k) as [child|e] eqn:E; [|reflexivity].
  cbn [rbind]. apply IH. intros q1 q2 b -> N W.
  apply (F (k :: q1) q2 b); auto.
  cbn [walk]. rewrite E. exact W.
Qed.

(** *** References stay in the store *)

Lemma closed_spec h config :
  closed h config = true -> Closed h /\ within h config.
Proof.
  unfold closed. rewrite forallb_app, andb_true_iff, !forallb_forall.
  intros [Hc Hh]. split.
  - intros a o b E I. apply Nat.ltb_lt, Hh, in_flat_map.
    exists o. split; [|exact I]. eapply nth_error_In; eauto.
  - intros b I. apply Nat.ltb_lt, Hc, I.
Qed.

Lemma dict_get_refs k (d : dict rval) b :
  dict_get k d = Some (RRef b) -> In b (refs_of (ODict d)).
Proof.
  induction d as [|[k' v'] d IH]; simpl; [discriminate|].
  destruct (String.eqb k k').
  - intros H. injection H as ->. simpl. auto.
  - intros H. apply in_or_app. right. apply IH, H.
Qed.

Lemma child_within h a d k child :
  Closed h -> nth_error h a = Some (ODict d) -> dict_get k d = Some child ->
  within h child.
Proof.
  intros C E G b I. destruct child; simpl in I; try contradiction.
  destruct I as [<-|[]]. eapply C; eauto using dict_get_refs.
Qed.

Lemma walk_within h q : forall config b,
  Closed h -> within h config ->
  walk h config q = Ok (RRef b) -> b < List.length h.
Proof.
  induction q as [|k q IH]; intros config b C W H.
  - injection H as ->. apply W. simpl. auto.
  - cbn [walk] in H. destruct (getitem h config k) as [child|e] eqn:G;
      [|discriminate].
    cbn [rbind] in H.
    destruct (getitem_ok _ _ _ _ G) as (a & d & -> & E & D).
    apply (IH child b C); [eapply child_within; eauto|exact H].
Qed.

Lemma dict_set_refs k v (d : dict rval) b :
  In b (refs_of (ODict (dict_set k v d))) ->
  In b (addr_of v) \/ In b (refs_of (ODict d)).
Proof.
  induction d as [|[k' v'] d IH]; simpl.
  - rewrite app_nil_r. auto.
  - destruct (String.eqb k k'); simpl; rewrite !in_app_iff.
    + intros [I|I]; auto.
    + intros [I|I]; auto. destruct (IH I); auto.
Qed.

Lemma extended_closed h a k d :
  Closed h -> nth_error h a = Some (ODict d) -> Closed (extended h a k d).
Proof.
  intros C E x o b Ex I.
  assert (a < List.length h) as L by (eapply nth_some_lt; eauto).
  unfold extended in *. rewrite put_length, length_app. simpl.
  destruct (Nat.eq_dec a x) as [<-|N].
  - rewrite nth_put_same in Ex by (rewrite length_app; lia).
    injection Ex as <-. apply dict_set_refs in I. destruct I as [I|I].
    + simpl in I. destruct I as [<-|[]]. lia.
    + pose proof (C _ _ _ E I). lia.
  - rewrite nth_put_other in Ex by exact N.
    destruct (Nat.lt_ge_cases x (List.length h)) as [Lx|Lx].
    + rewrite nth_error_app1 in Ex by exact Lx.
      pose proof (C _ _ _ Ex I). lia.
    + rewrite nth_error_app2 in Ex by exact Lx.
      destruct (x - List.length h) as [|[|n]]; simpl in Ex; try discriminate.
      injection Ex as <-. destruct I.
Qed.

(** The mapping made for a missing key is empty when the walk goes on. *)
Lemma extended_new h a k d :
  nth_error h a = Some (ODict d) ->
  nth_error (extended h a k d) (List.length h) = Some (ODict []).
Proof.
  intros E. assert (a < List.length h) as L by (eapply nth_some_lt; eauto).
  unfold extended. rewrite nth_put_other by lia.
  rewrite nth_error_app2 by lia. now rewrite Nat.sub_diag.
Qed.

Lemma extended_old h a k d b :
  b <> a -> b < List.length h ->
  nth_error (extended h a k d) b = nth_error h b.
Proof.
  intros N L. unfold extended. rewrite nth_put_other by congruence.
  now apply nth_error_app1.
Qed.


Lemma walk_from_new h a k d q v :
  nth_error h a = Some (ODict d) ->
  walk (extended h a k d) (RRef (List.length h)) q = Ok v ->
  q = [] /\ v = RRef (List.length h).
Proof.
  intros E. destruct q as [|k' q].
  - intros H. injection H as <-. auto.
  - rewrite (walk_cons _ _ _ _ _ (extended_new _ _ k _ E)). discriminate.
Qed.

(** *** The objects [set] leaves alone *)

(** An object that is not on the way of the write is not changed. *)
Lemma set_keys_untouched p : forall h config value h' b,
  set_keys h config p value = (h', Ok tt) ->
  b < List.length h ->
  (forall p1 p2, p = (p1 ++ p2)%list -> p2 <> [] ->
                 walk h config p1 <> Ok (RRef b)) ->
  nth_error h' b = nth_error h b.
Proof.
  induction p as [|k p IH]; intros h config value h' b H L F; [discriminate|].
  destruct p as [|k2 p].
  - destruct (set_keys_last _ _ _ _ _ H) as (a & d & -> & E & ->).
    apply nth_put_other. intros ->.
    apply (F [] [k]); auto. discriminate.
  - destruct (set_keys_descends _ _ _ _ _ _ _ H) as (a & d & -> & E & Hs).
    assert (b <> a) as N.
    { intros ->. apply (F [] (k :: k2 :: p)); auto. discriminate. }
    destruct (dict_get k d) as [child|] eqn:G.
    + apply (IH _ _ _ _ _ Hs L). intros p1 p2 Ep N2 W.
      apply (F (k :: p1) p2); [simpl; congruence|exact N2|].
      rewrite (walk_cons _ _ _ _ _ E), G. exact W.
    + rewrite <- (extended_old h a k d b N L).
      apply (IH _ _ _ _ _ Hs).
      * unfold extended. rewrite put_length, length_app. lia.
      * intros p1 p2 Ep N2 W.
        destruct (walk_from_new _ _ _ _ _ _ E W) as [_ R].
        injection R as ->. lia.
Qed.

(** Down from an unshared root nothing is shared either. *)
Lemma unshared_child h a d k child :
  unshared h (RRef a) -> nth_error h a = Some (ODict d) ->
  dict_get k d = Some child -> unshared h child.
Proof.
  intros U E G p q b Wp Wq.
  assert (k :: p = k :: q) as Eq; [|congruence].
  apply (U _ _ b); rewrite (walk_cons _ _ _ _ _ E), G; assumption.
Qed.

Lemma unshared_new h a k d :
  nth_error h a = Some (ODict d) ->
  unshared (extended h a k d) (RRef (List.length h)).
Proof.
  intros E p q b Wp Wq.
  destruct (walk_from_new _ _ _ _ _ _ E Wp) as [-> _].
  destruct (walk_from_new _ _ _ _ _ _ E Wq) as [-> _]. reflexivity.
Qed.

(** The mapping the write starts from, afterwards: the other keys are as
    they were, and the first key of a longer path holds the mapping the
    write went on in. *)
Lemma set_keys_root h a d k p value h' :
  unshared h (RRef a) -> nth_error h a = Some (ODict d) ->
  set_keys h (RRef a) (k :: p) value = (h', Ok tt) ->
  exists d',
    nth_error h' a = Some (ODict d')
    /\ (forall b, b <> k -> dict_get b d' = dict_get b d)
    /\ (p <> [] ->
        dict_get k d' = Some match dict_get k d with
                             | Some child => child
                             | None => RRef (List.length h)
                             end).
Proof.
  intros U E H.
  assert (a < List.length h) as L by (eapply nth_some_lt; eauto).
  destruct p as [|k2 p].
  - destruct (set_keys_last _ _ _ _ _ H) as (a' & d0 & Ea & E' & ->).
    injection Ea as <-. rewrite E in E'. injection E' as <-.
    exists (dict_set k value d). rewrite nth_put_same by exact L.
    split; [reflexivity|]. split; [|congruence].
    intros b N. apply dict_get_set_other. congruence.
  - destruct (set_keys_descends _ _ _ _ _ _ _ H) as (a' & d0 & Ea & E' & Hs).
    injection Ea as <-. rewrite E in E'. injection E' as <-.
    destruct (dict_get k d) as [child|] eqn:G.
    + exists d. split; [|split; [reflexivity|intros _; exact G]].
      rewrite (set_keys_untouched _ _ _ _ _ _ Hs L); [exact E|].
      intros p1 p2 _ _ W.
      assert (k :: p1 = []) as Eq; [|discriminate].
      apply (U _ _ a); [|reflexivity].
      rewrite (walk_cons _ _ _ _ _ E), G. exact W.
    + exists (dict_set k (RRef (List.length h)) d).
      split; [|split].
      * rewrite (set_keys_untouched _ _ _ _ _ _ Hs).
        -- now apply extended_at.
        -- unfold extended. rewrite put_length, length_app. lia.
        -- intros p1 p2 _ _ W.
           destruct (walk_from_new _ _ _ _ _ _ E W) as [_ R].
           injection R as ->. lia.
      * intros b N. apply dict_get_set_other. congruence.
      * intros _. apply dict_get_set_same.
Qed.

(** *** Writing along one path, reading along another *)

Lemma set_keys_frame p : forall q h config value h' default,
  Closed h -> within h config -> unshared h config ->
  set_keys h config p value = (h', Ok tt) ->
  diverge p q = true ->
  read h' config q default = read h config q default.
Proof.
  induction p as [|k p IH]; intros q h config value h' default C W U H D;
    [discriminate|].
  destruct q as [|b q]; [discriminate|]. cbn [diverge] in D.
  assert (exists a d, config = RRef a /\ nth_error h a = Some (ODict d))
    as (a & d & -> & E).
  { destruct p as [|k2 p].
    - destruct (set_keys_last _ _ _ _ _ H) as (a & d & -> & E & _). eauto.
    - destruct (set_keys_descends _ _ _ _ _ _ _ H) as (a & d & -> & E & _). eauto. }
  destruct (set_keys_root _ _ _ _ _ _ _ U E H) as (d' & E' & Hother & Hsame).
  rewrite (read_cons _ _ _ _ _ _ E'), (read_cons _ _ _ _ _ _ E).
  destruct (String.eqb k b) eqn:Ekb.
  - apply String.eqb_eq in Ekb. subst b.
    destruct p as [|k2 p]; [discriminate|].
    rewrite Hsame by discriminate.
    destruct (set_keys_descends _ _ _ _ _ _ _ H) as (a' & d0 & Ea & E0 & Hs).
    injection Ea as <-. rewrite E in E0. injection E0 as <-.
    destruct (dict_get k d) as [child|] eqn:G.
    + apply (IH q h child value h' default); eauto using child_within, unshared_child.
    + rewrite (IH q _ _ value h' default (extended_closed _ _ k _ C E)); auto.
      * destruct q as [|b q]; [discriminate|].
        now rewrite (read_cons _ _ _ _ _ _ (extended_new _ _ k _ E)).
      * intros x [<-|[]]. unfold extended. rewrite put_length, length_app.
        simpl. lia.
      * now apply unshared_new.
  - apply String.eqb_neq in Ekb.
    rewrite Hother by congruence.
    destruct (dict_get b d) as [child|] eqn:G; [|reflexivity].
    unfold read. rewrite (walk_frame h h' q child); [reflexivity|].
    intros q1 q2 x -> N2 Wx.
    assert (walk h (RRef a) (b :: q1) = Ok (RRef x)) as Wa.
    { rewrite (walk_cons _ _ _ _ _ E), G. exact Wx. }
    apply (set_keys_untouched _ _ _ _ _ _ H).
    + eapply walk_within; eauto.
    + intros p1 p2 Ep Np Wp.
      pose proof (U _ _ _ Wp Wa) as Eq. subst p1.
      simpl in Ep. congruence.
Qed.

(** *** A check for sharing *)

Lemma distinct_NoDup l : distinct l = true -> NoDup l.
Proof.
  induction l as [|a l IH]; simpl; [constructor|].
  rewrite andb_true_iff, negb_true_iff. intros [N D].
  constructor; auto. intros I.
  assert (existsb (Nat.eqb a) l = true); [|congruence].
  apply existsb_exists. exists a. split; [exact I|apply Nat.eqb_refl].
Qed.

Lemma NoDup_app_disjoint {A} (l1 l2 : list A) a :
  NoDup (l1 ++ l2) -> In a l1 -> In a l2 -> False.
Proof.
  induction l1 as [|x l1 IH]; simpl; [tauto|].
  intros N [->|I] I2.
  - inversion N as [|? ? Nx _]. apply Nx, in_or_app. auto.
  - inversion N; auto.
Qed.

(** Within one mapping an address stored once sits under one key. *)
Lemma one_key (d : dict rval) k k' a :
  NoDup (refs_of (ODict d)) ->
  dict_get k d = Some (RRef a) -> dict_get k' d = Some (RRef a) -> k = k'.
Proof.
  induction d as [|[k0 v0] d IH]; simpl; [discriminate|].
  intros N.
  destruct (String.eqb k k0) eqn:E1, (String.eqb k' k0) eqn:E2.
  - intros _ _. apply String.eqb_eq in E1, E2. congruence.
  - intros H1 H2. injection H1 as ->. exfalso.
    apply (NoDup_app_disjoint _ _ a N); [simpl; auto|].
    exact (dict_get_refs _ _ _ H2).
  - intros H1 H2. injection H2 as ->. exfalso.
    apply (NoDup_app_disjoint _ _ a N); [simpl; auto|].
    exact (dict_get_refs _ _ _ H1).
  - apply IH. eapply NoDup_app_remove_l; eauto.
Qed.

(** In the store an address stored once sits in one object. *)
Lemma one_object (h : heap) : forall x x' o o' a,
  NoDup (flat_map refs_of h) ->
  nth_error h x = Some o -> nth_error h x' = Some o' ->
  In a (refs_of o) -> In a (refs_of o') -> x = x'.
Proof.
  induction h as [|o0 h IH]; intros x x' o o' a N Ex Ex' I I';
    [destruct x; discriminate|].
  simpl in N.
  assert (forall y o1, nth_error h y = Some o1 -> In a (refs_of o1) ->
                       In a (flat_map refs_of h)) as Inh.
  { intros y o1 Ey Iy. apply in_flat_map. exists o1.
    split; [eapply nth_error_In; eauto|exact Iy]. }
  destruct x as [|x], x' as [|x']; simpl in Ex, Ex'; auto.
  - injection Ex as <-. exfalso.
    eapply (NoDup_app_disjoint _ _ a N); eauto.
  - injection Ex' as <-. exfalso.
    eapply (NoDup_app_disjoint _ _ a N); eauto.
  - f_equal. eapply IH; eauto. eapply NoDup_app_remove_l; eauto.
Qed.

Lemma walk_snoc h q k : forall config,
  walk h config (q ++ [k]) = rbind (walk h config q) (fun v => getitem h v k).
Proof.
  induction q as [|k' q IH]; intros config; simpl.
  - destruct (getitem h config k); reflexivity.
  - destruct (getitem h config k'); simpl; auto.
Qed.

(** The last step of a path that ends at an object. *)
Lemma walk_last h config q k a :
  walk h config (q ++ [k]) = Ok (RRef a) ->
  exists x d,
    walk h config q = Ok (RRef x) /\ nth_error h x = Some (ODict d)
    /\ dict_get k d = Some (RRef a).
Proof.
  rewrite walk_snoc. destruct (walk h config q) as [v|e]; [|discriminate].
  cbn [rbind]. intros G.
  destruct (getitem_ok _ _ _ _ G) as (x & d & -> & E & D). eauto.
Qed.

Lemma linear_unshared h config :
  linear h config = true -> unshared h config.
Proof.
  intros Hl. apply distinct_NoDup in Hl.
  assert (forall q k a, walk h config (q ++ [k]) = Ok (RRef a) ->
                        walk h config [] = Ok (RRef a) -> False) as Root.
  { intros q k a Wq W0. injection W0 as ->.
    destruct (walk_last _ _ _ _ _ Wq) as (x & d & _ & E & D).
    apply (NoDup_app_disjoint _ _ a Hl); [simpl; auto|].
    apply in_flat_map. exists (ODict d).
    split; [eapply nth_error_In; eauto|eapply dict_get_refs; eauto]. }
  apply NoDup_app_remove_l in Hl.
  intros p. induction p as [|k p IH] using rev_ind; intros q a Wp Wq.
  - destruct q as [|k q _] using rev_ind; [reflexivity|].
    destruct (Root _ _ _ Wq Wp).
  - destruct q as [|k' q _] using rev_ind; [destruct (Root _ _ _ Wp Wq)|].
    destruct (walk_last _ _ _ _ _ Wp) as (x & d & Wx & E & D).
    destruct (walk_last _ _ _ _ _ Wq) as (x' & d' & Wx' & E' & D').
    assert (x = x') as <-.
    { eapply (one_object h x x' _ _ a Hl); eauto using dict_get_refs. }
    rewrite E in E'. injection E' as <-.
    assert (k = k') as <-.
    { eapply (one_key d); eauto.
      clear - Hl E. revert x E. induction h as [|o h IH]; intros [|x] E;
        simpl in *; try discriminate.
      - injection E as ->. eapply NoDup_app_remove_r; eauto.
      - eapply IH; eauto. eapply NoDup_app_remove_l; eauto. }
    f_equal. eapply IH; eauto.
Qed.

Lemma diverge_not_prefix p : forall q p2,
  diverge p q = true -> p <> (q ++ p2)%list.
Proof.
  induction p as [|k p IH]; intros [|b q] p2 D; try discriminate.
  cbn [diverge] in D. destruct (String.eqb k b) eqn:E.
  - apply String.eqb_eq in E. subst b. simpl. intros Eq.
    injection Eq as Eq. exact (IH _ _ D Eq).
  - apply String.eqb_neq in E. simpl. congruence.
Qed.

(** X1.  Where no mapping of the configuration is shared, writing along
    one path leaves every path that parts ways with it as it was: [get]
    there returns what it returned before the [set], and a container it
    leads to is the object it was, unchanged. *)
Theorem set_leaves_unshared_paths h config key value h' key' default :
  closed h config = true ->
  unshared h config ->
  set h config key value = (h', Ok tt) ->
  diverge (split_on "." key) (split_on "." key') = true ->
  get h' config key' default = get h config key' default
  /\ forall a, leads_to h config key' a -> nth_error h' a = nth_error h a.
Proof.
  intros Hc U H D. destruct (closed_spec _ _ Hc) as [C W]. split.
  - exact (set_keys_frame _ _ _ _ _ _ default C W U H D).
  - intros a L. apply (set_keys_untouched _ _ _ _ _ _ H).
    + eapply walk_within; eauto.
    + intros p1 p2 Ep _ Wp. pose proof (U _ _ _ Wp L) as Eq. subst p1.
      exact (diverge_not_prefix _ _ _ D Ep).
Qed.

Lemma set_leaves_unshared_paths_witness :
  let h := fst default_objects in
  let config := snd default_objects in
  let h' := fst (set h config "wechat.qr.size" (RInt 2)) in
  get h' config "wechat.login_timeout" RNone
  = get h config "wechat.login_timeout" RNone
  /\ get h config "file_processing.supported_formats" RNone = Ok (RRef 4)
  /\ nth_error h' 4 = nth_error h 4.
Proof.
  intros h config h'. split; [|split; [reflexivity|]].
  - apply (set_leaves_unshared_paths h config "wechat.qr.size" (RInt 2) h'
             "wechat.login_timeout" RNone);
      [reflexivity|apply linear_unshared; reflexivity|reflexivity|reflexivity].
  - apply (set_leaves_unshared_paths h config "wechat.qr.size" (RInt 2) h'
             "file_processing.supported_formats" RNone);
      [reflexivity|apply linear_unshared; reflexivity|reflexivity|reflexivity
      |reflexivity].
Defined.

(** *** One mapping under several paths *)

Lemma split_on_app sep s t :
  split_on sep (s ++ String sep t) = (split_on sep s ++ split_on sep t)%list.
Proof.
  induction s as [|c s IH]; simpl.
  - now rewrite Ascii.eqb_refl.
  - destruct (Ascii.eqb c sep); [now rewrite IH|].
    rewrite IH. pose proof (split_on_nonempty sep s) as N.
    destruct (split_on sep s); [congruence|reflexivity].
Qed.

Lemma split_on_plain sep k : plain sep k = true -> split_on sep k = [k].
Proof.
  induction k as [|c k IH]; simpl; [reflexivity|].
  intros P. destruct (Ascii.eqb c sep); simpl in P; [discriminate|].
  now rewrite (IH P).
Qed.

(** A write below a path that leads to a mapping goes into that mapping:
    nothing is made on the way. *)
Lemma set_keys_along p k value a d : forall h config,
  walk h config p = Ok (RRef a) -> nth_error h a = Some (ODict d) ->
  set_keys h config (p ++ [k]) value
  = (put a (ODict (dict_set k value d)) h, Ok tt).
Proof.
  induction p as [|k1 p IH]; intros h config W E.
  - injection W as ->. cbn [app set_keys]. unfold setitem. now rewrite E.
  - cbn [walk] in W.
    destruct (getitem h config k1) as [child|e] eqn:G; [|discriminate].
    cbn [rbind] in W. specialize (IH h child W E).
    destruct (getitem_ok _ _ _ _ G) as (x & dx & -> & Ex & Dx).
    cbn [app]. destruct (p ++ [k])%list as [|k2 rest] eqn:R.
    + destruct p; discriminate.
    + rewrite set_keys_unfold. unfold contains, dict_mem.
      rewrite Ex, Dx, G. exact IH.
Qed.

(** X19.  A mapping that is reached along several paths is one object:
    [set] below one of them assigns into it, making nothing new, and the
    value is read back below every path that leads to the object. *)
Theorem write_shows_under_every_alias h config key k value a d :
  leads_to h config key a ->
  nth_error h a = Some (ODict d) ->
  plain "." k = true ->
  let h' := put a (ODict (dict_set k value d)) h in
  set h config (key ++ "." ++ k) value = (h', Ok tt)
  /\ forall key' default,
       leads_to h' config key' a ->
       get h' config (key' ++ "." ++ k) default = Ok value.
Proof.
  intros W E P h'. unfold leads_to, set, get in *. split.
  - change (key ++ "." ++ k) with (key ++ String "." k).
    rewrite split_on_app, (split_on_plain _ _ P).
    now apply set_keys_along.
  - intros key' default W'.
    change (key' ++ "." ++ k) with (key' ++ String "." k).
    rewrite split_on_app, (split_on_plain _ _ P), walk_snoc, W'.
    cbn [rbind]. unfold getitem, h'.
    rewrite nth_put_same by (eapply nth_some_lt; eauto).
    now rewrite dict_get_set_same.
Qed.

Lemma write_shows_under_every_alias_witness :
  let h := fst aliased_objects in
  let config := snd aliased_objects in
  get h config "b.k" RNone = Ok (RInt 1)
  /\ get (fst (set h config "a.k" (RInt 99))) config "b.k" RNone
     = Ok (RInt 99).
Proof.
  intros h config. split; [reflexivity|].
  destruct (write_shows_under_every_alias h config "a" "k" (RInt 99) 0
              [("k", RInt 1)] eq_refl eq_refl eq_refl) as [Hs Hg].
  specialize (Hg "b" RNone eq_refl). cbn [String.append] in Hs, Hg.
  rewrite Hs. exact Hg.
Defined.

End SharingFacts.

(** ** Invariants of the host *)

Module HostLogic.
Import HostSpec PluginManager MessageHandler.

Section Rules.
Variable P : World -> Prop.

Lemma keeps_ret {A} (a : A) : keeps P (ret a).
Proof. intros w H. exact H. Qed.

Lemma keeps_raise {A} e : keeps P (@raise A e).
Proof. intros w H. exact H. Qed.

Lemma keeps_lift {A} (r : result A) : keeps P (lift r).
Proof. intros w H. exact H. Qed.

Lemma keeps_gets {A} (f : World -> A) : keeps P (gets f).
Proof. intros w H. exact H. Qed.

Lemma keeps_config_get key default : keeps P (config_get key default).
Proof. intros w H. exact H. Qed.

Lemma keeps_bind {A B} (c : M A) (k : A -> M B) :
  keeps P c -> (forall a, keeps P (k a)) -> keeps P (bind c k).
Proof.
  intros Hc Hk w H. unfold bind. specialize (Hc w H).
  destruct (c w) as [w' [a|e]]; simpl in *; auto. now apply Hk.
Qed.

Lemma keeps_try {A} (c : M A) (h : exn -> M A) :
  keeps P c -> (forall e, keeps P (h e)) -> keeps P (try_except c h).
Proof.
  intros Hc Hh w H. unfold try_except. specialize (Hc w H).
  destruct (c w) as [w' [a|e]]; simpl in *; auto. now apply Hh.
Qed.

Lemma keeps_for_each {A} (items : list A) (body : A -> M unit) :
  (forall x, keeps P (body x)) -> keeps P (for_each items body).
Proof.
  intros Hb. induction items as [|x items IH]; cbn [for_each].
  - apply keeps_ret.
  - apply keeps_bind; auto.
Qed.

(** The property does not look at the log. *)
Hypothesis log_blind : forall e w, P w -> P (add_log e w).

Lemma keeps_logger lv t a c : keeps P (logger lv t a c).
Proof. intros w H. now apply log_blind. Qed.

(** The property survives a change of the attributes of a registered
    plugin. *)
Hypothesis update_blind : forall n p w,
  P w -> dict_mem n (plugins w) = true -> P (set_plugins (dict_set n p) w).

Lemma keeps_invoke {A} n
  (m : BasePlugin.class -> pyval -> BasePlugin.instance ->
       BasePlugin.instance * result A) :
  keeps P (invoke n m).
Proof.
  intros w H. unfold invoke.
  destruct (dict_get n (plugins w)) as [p|] eqn:E; [|exact H].
  destruct (m (cls p) (config w) (self_ p)) as [self' r]. cbn [fst].
  apply update_blind; auto. unfold dict_mem. now rewrite E.
Qed.

Lemma keeps_turn m t1 t2 n : keeps P (RegistrySpec.turn m t1 t2 n).
Proof.
  apply keeps_try.
  - apply keeps_bind; [apply keeps_invoke|intros; apply keeps_logger].
  - intros; apply keeps_logger.
Qed.

Lemma keeps_start_plugins : keeps P start_plugins.
Proof.
  apply keeps_bind; [apply keeps_gets|intros names].
  apply keeps_for_each. intros n.
  apply (keeps_turn BasePlugin.start).
Qed.

Lemma keeps_stop_plugins : keeps P stop_plugins.
Proof.
  apply keeps_bind; [apply keeps_gets|intros names].
  apply keeps_for_each. intros n.
  apply (keeps_turn BasePlugin.stop).
Qed.

Lemma keeps_execute_plugin_command n command kwargs :
  keeps P (execute_plugin_command n command kwargs).
Proof.
  apply keeps_bind; [apply keeps_gets|intros [p|]].
  - apply keeps_invoke.
  - apply keeps_raise.
Qed.

Lemma keeps_get_status : keeps P get_status.
Proof.
  apply keeps_bind; [apply keeps_config_get|intros].
  apply keeps_bind; [apply keeps_gets|intros]. apply keeps_ret.
Qed.

Lemma keeps_config_validate : keeps P config_validate.
Proof.
  apply keeps_bind; [apply keeps_gets|intros].
  apply keeps_bind; [apply keeps_lift|intros [key|]].
  - apply keeps_bind; [apply keeps_logger|intros; apply keeps_ret].
  - apply keeps_ret.
Qed.

Lemma keeps_plugin_command self content user_id :
  keeps P (_handle_plugin_command self content user_id).
Proof.
  apply keeps_try; [|intros; apply keeps_bind;
                      [apply keeps_logger|intros; apply keeps_ret]].
  destruct (startswith_slash content); [|apply keeps_ret].
  destruct (split_space_once (tail content)) as [|n rest]; [apply keeps_ret|].
  destruct (_get_plugin_manager self); [|apply keeps_ret].
  apply keeps_bind; [apply keeps_gets|intros [p|]].
  - apply keeps_invoke.
  - apply keeps_ret.
Qed.

Lemma keeps_handler_tail {A} (t : string) (e : exn) (v : A) :
  keeps P (logger ERROR t [] (Some e) ;; ret v).
Proof. apply keeps_bind; [apply keeps_logger|intros; apply keeps_ret]. Qed.

(** The handlers of the system commands other than the reload. *)
Lemma keeps_quiet_handler h self msg :
  h <> cmd_reload -> keeps P (run_handler h self msg).
Proof.
  intros N. destruct h; cbn [run_handler]; [| | |congruence].
  - apply keeps_ret.
  - apply keeps_try; [|intros; apply keeps_handler_tail].
    destruct (_get_plugin_manager self); [|apply keeps_ret].
    apply keeps_bind; [apply keeps_get_status|intros].
    apply keeps_bind; [apply keeps_config_validate|intros]. apply keeps_ret.
  - apply keeps_try; [|intros; apply keeps_handler_tail].
    destruct (_get_plugin_manager self); [|apply keeps_ret].
    apply keeps_bind; [apply keeps_get_status|intros]. apply keeps_ret.
Qed.

Lemma keeps_bind_lift {A B} (r : result A) (k : A -> M B) :
  (forall a, r = Ok a -> keeps P (k a)) -> keeps P (bind (lift r) k).
Proof.
  intros Hk w H. unfold bind, lift. destruct r as [a|e]; simpl; auto.
  now apply Hk.
Qed.

Lemma first_match_reload content :
  first_match command_patterns content = Some cmd_reload ->
  re_match ["重载"; "reload"] content = true.
Proof.
  unfold command_patterns, first_match.
  repeat match goal with
         | |- (if ?b then _ else _) = _ -> _ => destruct b; [discriminate|]
         end.
  destruct (re_match ["重载"; "reload"] content); [reflexivity|discriminate].
Qed.

(** A message that is not the reload command. *)
Lemma keeps_quiet_message self msg rnd :
  (forall text, py_getitem msg "Text" = Ok (VStr text) ->
                re_match ["重载"; "reload"] (strip text) = false) ->
  keeps P (handle_text_message self msg rnd).
Proof.
  intros Q.
  apply keeps_try; [|intros; apply keeps_handler_tail].
  apply keeps_bind; [apply keeps_lift|intros user_id].
  apply keeps_bind_lift. intros text Ht.
  apply keeps_bind_lift. intros content Hc.
  destruct text; try discriminate. cbn [py_strip] in Hc. injection Hc as <-.
  apply keeps_bind; [apply keeps_logger|intros _].
  destruct (first_match command_patterns (strip s)) as [h|] eqn:F.
  - apply keeps_quiet_handler. intros ->.
    apply first_match_reload in F. rewrite (Q s Ht) in F. discriminate.
  - apply keeps_bind; [apply keeps_plugin_command|intros v].
    destruct (py_truthy v); apply keeps_ret.
Qed.

(** The loading and unloading of plugins are not among the operations
    above: a property they keep has to survive registration and
    removal as well. *)
Hypothesis register_blind : forall n p m w,
  P w -> P (set_plugin_modules (dict_set n m) (set_plugins (dict_set n p) w)).

Hypothesis remove_blind : forall n w,
  P w -> P (set_plugin_modules (dict_del n) (set_plugins (dict_del n) w)).

Lemma set_plugin_modules_absent n w :
  dict_get n (plugin_modules w) = None ->
  set_plugin_modules (dict_del n) w = w.
Proof.
  intros E. unfold set_plugin_modules. rewrite (dict_del_absent _ _ E).
  destruct w; reflexivity.
Qed.

Lemma keeps_load_plugin n : keeps P (load_plugin n).
Proof.
  intros w H. unfold load_plugin. run.
  destruct (files w (path_join plugins_dir (n ++ ".py"))) as [[module|e]|];
    run; auto.
  destruct (find_plugin_class (members module)) as [c|]; run; auto.
  destruct (BasePlugin.new c (config w)) as [self|e]; run; auto.
Qed.

Lemma keeps_unload_plugin n : keeps P (unload_plugin n).
Proof.
  intros w H. unfold unload_plugin, invoke, dict_mem. run.
  destruct (dict_get n (plugins w)) as [p|] eqn:E; run; auto.
  rewrite E.
  assert (forall p', P (set_plugins (dict_set n p') w)) as U.
  { intros p'. apply update_blind; auto. unfold dict_mem. now rewrite E. }
  destruct (BasePlugin.stop (cls p) (config w) (self_ p)) as [self' [u|e]];
    run; auto.
  set (w1 := set_plugins (dict_set n {| cls := cls p; self_ := self' |}) w).
  specialize (U {| cls := cls p; self_ := self' |}). fold w1 in U.
  destruct (dict_get n (plugin_modules w)) eqn:Em; run; apply log_blind.
  - exact (remove_blind n w1 U).
  - rewrite <- (set_plugin_modules_absent n (set_plugins (dict_del n) w1)).
    + exact (remove_blind n w1 U).
    + exact Em.
Qed.

Lemma keeps_load_item item : keeps P (load_item item).
Proof.
  destruct item; try apply keeps_ret.
  apply keeps_bind; [apply keeps_load_plugin|intros; apply keeps_ret].
Qed.

Lemma keeps_reload_plugin n : keeps P (reload_plugin n).
Proof.
  apply keeps_try.
  - apply keeps_bind; [apply keeps_unload_plugin|intros].
    apply keeps_bind; [apply keeps_load_plugin|intros; apply keeps_ret].
  - intros. apply keeps_bind; [now apply keeps_logger|intros; apply keeps_ret].
Qed.

Lemma keeps_load_plugins : keeps P load_plugins.
Proof.
  apply keeps_bind; [apply keeps_config_get|intros].
  apply keeps_bind; [apply keeps_lift|intros].
  apply keeps_for_each. intros x.
  apply keeps_try; [apply keeps_load_item|intros; now apply keeps_logger].
Qed.

Lemma keeps_reload_plugins : keeps P reload_plugins.
Proof.
  apply keeps_bind; [now apply keeps_logger|intros].
  apply keeps_bind; [apply keeps_config_get|intros].
  apply keeps_bind; [apply keeps_gets|intros].
  apply keeps_bind.
  { apply keeps_for_each. intros x.
    apply keeps_bind; [apply keeps_unload_plugin|intros; apply keeps_ret]. }
  intros. apply keeps_bind; [apply keeps_lift|intros].
  apply keeps_bind; [apply keeps_for_each; apply keeps_load_item|intros].
  now apply keeps_logger.
Qed.

Lemma keeps_run_handler h self msg : keeps P (run_handler h self msg).
Proof.
  destruct h; try (apply keeps_quiet_handler; auto; discriminate).
  cbn [run_handler]. apply keeps_try; [|intros; now apply keeps_handler_tail].
  destruct (_get_plugin_manager self); [|apply keeps_ret].
  apply keeps_bind; [apply keeps_reload_plugins|intros; apply keeps_ret].
Qed.

Lemma keeps_handle_text_message self msg rnd :
  keeps P (handle_text_message self msg rnd).
Proof.
  apply keeps_try; [|intros; now apply keeps_handler_tail].
  apply keeps_bind; [apply keeps_lift|intros user_id].
  apply keeps_bind; [apply keeps_lift|intros text].
  apply keeps_bind; [apply keeps_lift|intros content].
  apply keeps_bind; [now apply keeps_logger|intros].
  destruct (first_match command_patterns content) as [h|].
  - apply keeps_run_handler.
  - apply keeps_bind; [now apply keeps_plugin_command|intros v].
    destruct (py_truthy v); apply keeps_ret.
Qed.

Lemma keeps_execute_command self command user_id :
  keeps P (MessageHandlerRest.execute_command self command user_id).
Proof.
  apply keeps_try; [|intros; now apply keeps_handler_tail].
  destruct command; try apply keeps_raise.
  destruct (first_match command_patterns s) as [h|].
  - apply keeps_run_handler.
  - apply keeps_bind; [now apply keeps_plugin_command|intros v].
    destruct (py_truthy v); apply keeps_ret.
Qed.

Lemma keeps_handle_file_message self upload msg :
  keeps P (MessageHandlerRest.handle_file_message self upload msg).
Proof.
  apply keeps_try; [|intros; now apply keeps_handler_tail].
  apply keeps_bind; [apply keeps_lift|intros user_id].
  apply keeps_bind; [apply keeps_lift|intros file_name].
  apply keeps_bind; [apply keeps_lift|intros file_path].
  apply keeps_bind; [now apply keeps_logger|intros].
  apply keeps_bind.
  { apply keeps_try.
    - destruct (_get_plugin_manager self); [apply keeps_gets|apply keeps_ret].
    - intros. apply keeps_bind; [now apply keeps_logger|intros; apply keeps_ret]. }
  intros [p|]; [|apply keeps_ret].
  apply keeps_bind; [apply keeps_gets|intros [q|]]; [|apply keeps_raise].
  destruct (upload (cls q)); [now apply keeps_invoke|apply keeps_raise].
Qed.

End Rules.

End HostLogic.

Module RegistryMore.
Import HostSpec PluginManager MessageHandler HostLogic.

Lemma dict_keys_set_aligned {V W} k (v : V) (x : W) : forall (d : dict V) (d' : dict W),
  dict_keys d' = dict_keys d ->
  dict_keys (dict_set k x d') = dict_keys (dict_set k v d).
Proof.
  induction d as [|[k1 v1] d IH]; intros [|[k2 v2] d'] E; simpl in *;
    try discriminate; auto.
  injection E as -> E.
  destruct (String.eqb k k1); simpl; f_equal; auto.
Qed.

Lemma coherent_log e w : coherent w -> coherent (add_log e w).
Proof. intros H. exact H. Qed.

Lemma coherent_update n p w :
  coherent w -> dict_mem n (plugins w) = true ->
  coherent (set_plugins (dict_set n p) w).
Proof.
  intros [N E] M. unfold coherent. cbn [plugins plugin_modules set_plugins].
  rewrite (dict_keys_set_present n p _ M). auto.
Qed.

Lemma coherent_register n p m w :
  coherent w ->
  coherent (set_plugin_modules (dict_set n m) (set_plugins (dict_set n p) w)).
Proof.
  intros [N E]. unfold coherent.
  cbn [plugins plugin_modules set_plugins set_plugin_modules]. split.
  - now apply dict_set_keys_nodup.
  - now apply dict_keys_set_aligned.
Qed.

Lemma coherent_remove n w :
  coherent w ->
  coherent (set_plugin_modules (dict_del n) (set_plugins (dict_del n) w)).
Proof.
  intros [N E]. unfold coherent.
  cbn [plugins plugin_modules set_plugins set_plugin_modules]. split.
  - now apply dict_del_keys_nodup.
  - rewrite !dict_keys_del. now rewrite E.
Qed.

(** X6.  The registry stays coherent: starting from a manager that has
    loaded nothing, whatever sequence of registry operations and
    messages is run, the plugin names are distinct and the dictionary of
    modules has the same names in the same order as the dictionary of
    plugins. *)
Theorem registry_stays_coherent :
  (forall w, plugins w = [] -> plugin_modules w = [] -> coherent w)
  /\ (forall n, keeps coherent (load_plugin n))
  /\ (forall n, keeps coherent (unload_plugin n))
  /\ (forall n, keeps coherent (reload_plugin n))
  /\ keeps coherent load_plugins
  /\ keeps coherent reload_plugins
  /\ keeps coherent start_plugins
  /\ keeps coherent stop_plugins
  /\ (forall n command kwargs,
        keeps coherent (execute_plugin_command n command kwargs))
  /\ (forall self msg rnd, keeps coherent (handle_text_message self msg rnd))
  /\ (forall self command user_id,
        keeps coherent (MessageHandlerRest.execute_command self command user_id))
  /\ (forall self upload msg,
        keeps coherent (MessageHandlerRest.handle_file_message self upload msg)).
Proof.
  pose proof coherent_log as L. pose proof coherent_update as U.
  pose proof coherent_register as R. pose proof coherent_remove as D.
  split; [intros w Hp Hm; split; [rewrite Hp; constructor
                                 |rewrite Hp, Hm; reflexivity]|].
  split; [intros n; now apply keeps_load_plugin|].
  split; [intros n; now apply keeps_unload_plugin|].
  split; [intros n; now apply keeps_reload_plugin|].
  split; [now apply keeps_load_plugins|].
  split; [now apply keeps_reload_plugins|].
  split; [now apply keeps_start_plugins|].
  split; [now apply keeps_stop_plugins|].
  split; [intros; now apply keeps_execute_plugin_command|].
  split; [intros; now apply keeps_handle_text_message|].
  split; [intros; now apply keeps_execute_command|].
  intros; now apply keeps_handle_file_message.
Qed.

Lemma registry_stays_coherent_witness :
  coherent (fst (handle_text_message Fixtures.wired
                   (Fixtures.text_message "alice" "reload") 0
                   (Fixtures.world []))).
Proof.
  destruct registry_stays_coherent as (I & _ & _ & _ & _ & _ & _ & _ & _ & H & _).
  apply H. apply I; reflexivity.
Defined.

(** X7.  Only loading, unloading and reloading change which plugins are
    registered: [start_plugins], [stop_plugins], [execute_plugin_command]
    and every message that is not the reload command leave the list of
    loaded names and the dictionary of modules as they were. *)
Theorem loaded_names_change_only_on_load_and_unload w :
  let same w' := dict_keys (plugins w') = dict_keys (plugins w)
                 /\ plugin_modules w' = plugin_modules w in
  same (fst (start_plugins w))
  /\ same (fst (stop_plugins w))
  /\ (forall n command kwargs,
        same (fst (execute_plugin_command n command kwargs w)))
  /\ (forall self msg rnd,
        (forall text, py_getitem msg "Text" = Ok (VStr text) ->
                      re_match ["重载"; "reload"] (strip text) = false) ->
        same (fst (handle_text_message self msg rnd w))).
Proof.
  intros same.
  assert (forall e w', same w' -> same (add_log e w')) as L
      by (intros; assumption).
  assert (forall n p w', same w' -> dict_mem n (plugins w') = true ->
                         same (set_plugins (dict_set n p) w')) as U.
  { intros n p w' [K Mo] Mem. split; [|exact Mo].
    cbn [plugins set_plugins]. now rewrite dict_keys_set_present. }
  assert (same w) as H0 by (split; reflexivity).
  split; [now apply (keeps_start_plugins same L U w)|].
  split; [now apply (keeps_stop_plugins same L U w)|].
  split; [intros; now apply (keeps_execute_plugin_command same U n command kwargs w)|].
  intros self msg rnd Q. now apply (keeps_quiet_message same L U self msg rnd Q w).
Qed.

Lemma loaded_names_change_only_on_load_and_unload_witness :
  let w := Fixtures.world
             [("help", Fixtures.instance_of
                         (Fixtures.simple_plugin "HelpPlugin" (VStr "help text"))
                         "HelpPlugin")] in
  dict_keys (plugins (fst (handle_text_message Fixtures.wired
                             (Fixtures.text_message "alice" "/help me") 0 w)))
  = ["help"].
Proof.
  intros w.
  destruct (loaded_names_change_only_on_load_and_unload w) as (_ & _ & _ & H).
  apply H. intros text E. injection E as <-. reflexivity.
Defined.

End RegistryMore.

Module LoadingMore.
Import HostSpec PluginManager RegistrySpec PluginManagerFacts LoopFacts
  ReloadFacts.

(** [load_plugin] in terms of [loaded_instance]. *)
Lemma load_plugin_outcome n w :
  let (w', r) := load_plugin n w in
  config w' = config w /\ files w' = files w
  /\ r = Ok (loaded_instance w n)
  /\ match loaded_instance w n with
     | Some p =>
         plugins w' = dict_set n p (plugins w)
         /\ exists m, plugin_modules w' = dict_set n m (plugin_modules w)
     | None => plugins w' = plugins w /\ plugin_modules w' = plugin_modules w
     end.
Proof.
  pose proof (load_plugin_cases n w) as H. cbv zeta in H.
  unfold loaded_instance.
  destruct (load_plugin n w) as [w' r]. destruct H as (Hc & Hf & H).
  destruct (files w _) as [[module|e]|]; try (intuition; fail).
  destruct (find_plugin_class _) as [c|]; try (intuition; fail).
  destruct (BasePlugin.new _ _) as [self|e]; try (intuition; fail).
  destruct H as (Hr & Hp & Hm). repeat split; eauto.
Qed.

Lemma can_load_instance w n :
  can_load w n = match loaded_instance w n with Some _ => true | None => false end.
Proof.
  unfold can_load, loaded_instance.
  destruct (files w _) as [[module|e]|]; auto.
  destruct (find_plugin_class _) as [c|]; auto.
  destruct (BasePlugin.new _ _); auto.
Qed.

Lemma loaded_instance_frame w w' n :
  config w' = config w -> files w' = files w ->
  loaded_instance w' n = loaded_instance w n.
Proof. intros Hc Hf. unfold loaded_instance. now rewrite Hc, Hf. Qed.

(** X8.  After a successful [load_plugin] the name is registered with the
    instance returned, and it is listed once: a name that was not
    registered comes last, a name that was registered keeps its place
    (its instance is replaced). *)
Theorem load_plugin_registers_once n w p :
  NoDup (dict_keys (plugins w)) ->
  snd (load_plugin n w) = Ok (Some p) ->
  let w' := fst (load_plugin n w) in
  dict_get n (plugins w') = Some p
  /\ NoDup (dict_keys (plugins w'))
  /\ count_occ string_dec (dict_keys (plugins w')) n = 1
  /\ dict_keys (plugins w') =
     if dict_mem n (plugins w) then dict_keys (plugins w)
     else (dict_keys (plugins w) ++ [n])%list.
Proof.
  intros N. pose proof (load_plugin_outcome n w) as H.
  destruct (load_plugin n w) as [w' r]. cbn [fst snd]. intros ->.
  destruct H as (_ & _ & Hr & H). injection Hr as Hr. rewrite <- Hr in H.
  destruct H as (Hp & _). rewrite Hp.
  assert (NoDup (dict_keys (dict_set n p (plugins w)))) as N'
      by now apply dict_set_keys_nodup.
  split; [apply dict_get_set_same|]. split; [exact N'|]. split.
  - apply NoDup_count_occ'; auto.
    assert (dict_mem n (dict_set n p (plugins w)) = true) as M
        by apply dict_mem_set_same.
    unfold dict_mem in M. clear - M.
    induction (dict_set n p (plugins w)) as [|[k v] d IH]; simpl in *;
      [discriminate|].
    destruct (String.eqb n k) eqn:E.
    + apply String.eqb_eq in E. auto.
    + auto.
  - unfold dict_mem. destruct (dict_get n (plugins w)) eqn:E.
    + apply dict_keys_set_present. unfold dict_mem. now rewrite E.
    + now apply dict_keys_set_absent.
Qed.

Lemma load_plugin_registers_once_witness :
  let w := Fixtures.world
             [("scheduler", Fixtures.instance_of
                 (Fixtures.simple_plugin "SchedulerPlugin" VNone) "SchedulerPlugin")] in
  dict_keys (plugins (fst (load_plugin "help" w))) = ["scheduler"; "help"].
Proof.
  intros w.
  refine (proj2 (proj2 (proj2
    (load_plugin_registers_once "help" w
       (Fixtures.instance_of
          (Fixtures.simple_plugin "HelpPlugin" (VStr "help text")) "HelpPlugin")
       _ _)))).
  - repeat constructor; simpl; intuition discriminate.
  - reflexivity.
Defined.

Lemma unload_plugin_returns n w :
  exists w' b, unload_plugin n w = (w', Ok b).
Proof.
  unfold unload_plugin, invoke, dict_mem. run.
  destruct (dict_get n (plugins w)) as [p|] eqn:E; run; eauto.
  rewrite E.
  destruct (BasePlugin.stop (cls p) (config w) (self_ p)) as [self' [u|e]];
    run; eauto.
  destruct (dict_get n (plugin_modules w)); run; eauto.
Qed.

(** What [unload_plugin] leaves, field by field. *)
Lemma unload_plugin_outcome n w :
  let (w', r) := unload_plugin n w in
  config w' = config w /\ files w' = files w /\
  match dict_get n (plugins w) with
  | None => r = Ok false /\ plugins w' = plugins w
            /\ plugin_modules w' = plugin_modules w
  | Some p =>
      match BasePlugin.stop (cls p) (config w) (self_ p) with
      | (_, Ok _) =>
          r = Ok true /\ plugins w' = dict_del n (plugins w)
          /\ plugin_modules w' = dict_del n (plugin_modules w)
      | (self', Raise _) =>
          r = Ok false
          /\ plugins w' = dict_set n {| cls := cls p; self_ := self' |} (plugins w)
          /\ plugin_modules w' = plugin_modules w
      end
  end.
Proof.
  unfold unload_plugin, invoke, dict_mem. run.
  destruct (dict_get n (plugins w)) as [p|] eqn:E; run; auto.
  rewrite E.
  destruct (BasePlugin.stop (cls p) (config w) (self_ p)) as [self' [u|e]];
    run; auto.
  destruct (dict_get n (plugin_modules w)) eqn:Em; run;
    rewrite dict_del_set_same; repeat split; auto.
  now rewrite dict_del_absent.
Qed.

(** X9.  Loading and then unloading a plugin undoes the loading: when
    the name was not registered, the load succeeds and the [stop] of the
    new instance returns, [unload_plugin] answers [True] and both
    dictionaries are what they were before the load. *)
Theorem load_then_unload_restores n w p :
  dict_get n (plugins w) = None ->
  dict_get n (plugin_modules w) = None ->
  snd (load_plugin n w) = Ok (Some p) ->
  stops (config w) (n, p) ->
  let w1 := fst (load_plugin n w) in
  let w2 := fst (unload_plugin n w1) in
  snd (unload_plugin n w1) = Ok true
  /\ plugins w2 = plugins w /\ plugin_modules w2 = plugin_modules w.
Proof.
  intros Ep Em. pose proof (load_plugin_outcome n w) as H.
  destruct (load_plugin n w) as [w1 r]. cbn [fst snd]. intros -> Hs.
  destruct H as (Hc & _ & Hr & H). injection Hr as Hr. rewrite <- Hr in H.
  destruct H as (Hp & m & Hm).
  pose proof (unload_plugin_outcome n w1) as U.
  destruct (unload_plugin n w1) as [w2 r2]. cbn [fst snd].
  destruct U as (_ & _ & U).
  rewrite Hp, dict_get_set_same, Hc in U.
  unfold stops in Hs. cbn [fst snd] in Hs.
  destruct (BasePlugin.stop (cls p) (config w) (self_ p)) as [self' r'].
  cbn [snd] in Hs. subst r'. destruct U as (-> & U1 & U2).
  rewrite U1, U2, Hm, !dict_del_set_same, !dict_del_absent; auto.
Qed.

Lemma load_then_unload_restores_witness :
  let w := Fixtures.world
             [("scheduler", Fixtures.instance_of
                 (Fixtures.simple_plugin "SchedulerPlugin" VNone) "SchedulerPlugin")] in
  dict_keys (plugins (fst (unload_plugin "help" (fst (load_plugin "help" w)))))
  = ["scheduler"].
Proof.
  intros w.
  pose proof (load_then_unload_restores "help" w
                (Fixtures.instance_of
                   (Fixtures.simple_plugin "HelpPlugin" (VStr "help text"))
                   "HelpPlugin") eq_refl eq_refl eq_refl eq_refl)
    as (_ & H & _).
  rewrite H. reflexivity.
Defined.

End LoadingMore.

Module ReloadingMore.
Import HostSpec PluginManager RegistrySpec PluginManagerFacts LoopFacts
  ReloadFacts LoadingMore.

(** X10.  [reload_plugin] never raises and answers [True] exactly when the
    plugin can be loaded.  It then holds the newly constructed instance
    under the name, also when the old instance could not be stopped.
    When the plugin cannot be loaded, the name is left unregistered if
    the old instance stopped (or there was none), and the old instance
    stays if its [stop] raised. *)
Theorem reload_plugin_outcome n w :
  let (w', r) := reload_plugin n w in
  r = Ok (can_load w n)
  /\ dict_get n (plugins w') =
     match loaded_instance w n with
     | Some p => Some p
     | None =>
         match dict_get n (plugins w) with
         | None => None
         | Some old =>
             match BasePlugin.stop (cls old) (config w) (self_ old) with
             | (_, Ok _) => None
             | (self', Raise _) => Some {| cls := cls old; self_ := self' |}
             end
         end
     end.
Proof.
  unfold reload_plugin, try_except. unfold bind at 1.
  pose proof (unload_plugin_outcome n w) as U.
  destruct (unload_plugin_returns n w) as (w1 & b & E). rewrite E in *.
  destruct U as (Uc & Uf & U).
  unfold bind at 1.
  pose proof (load_plugin_outcome n w1) as L.
  destruct (load_plugin n w1) as [w2 r2].
  destruct L as (_ & _ & -> & L).
  rewrite (loaded_instance_frame w w1 n Uc Uf) in *.
  rewrite can_load_instance. unfold ret.
  destruct (loaded_instance w n) as [p|].
  - destruct L as (Lp & _). rewrite Lp. split; [reflexivity|].
    apply dict_get_set_same.
  - destruct L as (Lp & _). rewrite Lp. split; [reflexivity|].
    destruct (dict_get n (plugins w)) as [old|] eqn:Eo.
    + destruct (BasePlugin.stop (cls old) (config w) (self_ old))
        as [self' [u|e]]; destruct U as (_ & -> & _).
      * apply dict_get_del_same.
      * apply dict_get_set_same.
    + destruct U as (_ & -> & _). exact Eo.
Qed.

Lemma can_load_frame w w' n :
  config w' = config w -> files w' = files w -> can_load w' n = can_load w n.
Proof. intros Hc Hf. unfold can_load. now rewrite Hc, Hf. Qed.

Lemma load_item_returns item w : exists w', load_item item w = (w', Ok tt).
Proof.
  destruct item; try (eexists; reflexivity).
  unfold load_item, bind, ret.
  destruct (load_plugin_returns s w) as [o H].
  destruct (load_plugin s w) as [w' r]. cbn [snd] in H. subst r. eauto.
Qed.

(** The loop over the configured names: the names that can be loaded are
    appended in order. *)
Lemma load_items_appends items : forall w,
  NoDup (names_of items) ->
  (forall n, In n (names_of items) -> dict_get n (plugins w) = None) ->
  exists w',
    for_each items load_item w = (w', Ok tt)
    /\ dict_keys (plugins w') =
       (dict_keys (plugins w) ++ filter (can_load w) (names_of items))%list
    /\ config w' = config w /\ files w' = files w.
Proof.
  induction items as [|item items IH]; intros w N A.
  - exists w. simpl. rewrite app_nil_r. auto.
  - cbn [for_each]. unfold bind at 1.
    assert (forall w1 : World,
              config w1 = config w -> files w1 = files w ->
              NoDup (names_of items) ->
              (forall n, In n (names_of items) -> dict_get n (plugins w1) = None) ->
              exists w',
                for_each items load_item w1 = (w', Ok tt)
                /\ dict_keys (plugins w') =
                   (dict_keys (plugins w1) ++
                    filter (can_load w) (names_of items))%list
                /\ config w' = config w /\ files w' = files w) as IH'.
    { intros w1 Hc Hf N1 A1.
      destruct (IH w1 N1 A1) as (w' & Hr & Hk & Hc' & Hf').
      exists w'. rewrite Hr, Hk, Hc', Hf', Hc, Hf. repeat split; auto.
      f_equal. apply filter_ext. intros n. now apply can_load_frame. }
    destruct item as [| | |n| |];
      try (cbn [load_item ret names_of] in *; apply IH'; auto).
    cbn [names_of] in N, A. inversion N as [|? ? Nn N']; subst.
    unfold load_item at 1. unfold bind at 1. unfold ret at 1.
    pose proof (load_plugin_outcome n w) as L.
    destruct (load_plugin n w) as [w1 r]. destruct L as (Lc & Lf & -> & L).
    cbn [names_of filter]. rewrite can_load_instance. cbv beta iota.
    destruct (loaded_instance w n) as [p|].
    + destruct L as (Lp & _).
      destruct (IH' w1 Lc Lf N') as (w' & Hr & Hk & Hc & Hf).
      { intros n' I. rewrite Lp, dict_get_set_other; [apply A; now right|].
        intros ->. contradiction. }
      exists w'. rewrite Hr, Hk, Lp.
      rewrite dict_keys_set_absent by (apply A; now left).
      rewrite <- app_assoc. auto.
    + destruct L as (Lp & _).
      destruct (IH' w1 Lc Lf N') as (w' & Hr & Hk & Hc & Hf).
      { intros n' I. rewrite Lp. apply A. now right. }
      exists w'. rewrite Hr, Hk, Lp. auto.
Qed.

Lemma for_each_ext {A} (items : list A) (f g : A -> M unit) :
  (forall x w, f x w = g x w) ->
  forall w, for_each items f w = for_each items g w.
Proof.
  intros E. induction items as [|x items IH]; intros w; cbn [for_each]; auto.
  unfold bind. rewrite E. destruct (g x w) as [w' [u|e]]; auto.
Qed.

Lemma guarded_load_item item h w :
  try_except (load_item item) h w = load_item item w.
Proof.
  unfold try_except. destruct (load_item_returns item w) as [w' ->].
  reflexivity.
Qed.

(** X11.  [load_plugins] with a list in [plugins.enabled] whose names are
    distinct and not yet registered: it returns normally, and the names
    registered afterwards are those registered before followed by the
    enabled names that can be loaded, in the configured order; a name
    that cannot be loaded is skipped without stopping the others. *)
Theorem load_plugins_loads_what_it_can w items :
  ConfigManager.get (config w) "plugins.enabled" (VList []) = Ok (VList items) ->
  NoDup (names_of items) ->
  (forall n, In n (names_of items) -> dict_get n (plugins w) = None) ->
  exists w',
    load_plugins w = (w', Ok tt)
    /\ dict_keys (plugins w') =
       (dict_keys (plugins w) ++ filter (can_load w) (names_of items))%list.
Proof.
  intros He N A. unfold load_plugins.
  unfold bind at 1. unfold config_get. rewrite He.
  unfold bind at 1. unfold lift. cbn [py_iter].
  rewrite (for_each_ext items _ load_item)
    by (intros; apply guarded_load_item).
  destruct (load_items_appends items w N A) as (w' & Hr & Hk & _).
  eauto.
Qed.

Lemma load_plugins_loads_what_it_can_witness :
  let w := set_config
             (VDict [("plugins",
                      VDict [("enabled",
                              VList [VStr "broken"; VStr "help"; VInt 3;
                                     VStr "nothing"; VStr "scheduler"])])])
             (Fixtures.world []) in
  exists w',
    load_plugins w = (w', Ok tt)
    /\ dict_keys (plugins w') = ["help"; "scheduler"].
Proof.
  intros w.
  apply (load_plugins_loads_what_it_can w
           [VStr "broken"; VStr "help"; VInt 3; VStr "nothing"; VStr "scheduler"]).
  - reflexivity.
  - repeat constructor; simpl; intuition discriminate.
  - reflexivity.
Defined.

(** X12.  [reload_plugins] with a list of distinct names in
    [plugins.enabled], when the [stop] of every loaded plugin returns:
    it returns normally and [get_status] then lists exactly the enabled
    names that can be loaded, in the configured order. *)
Theorem reload_plugins_loads_what_it_can w items :
  ConfigManager.get (config w) "plugins.enabled" (VList []) = Ok (VList items) ->
  NoDup (names_of items) ->
  NoDup (dict_keys (plugins w)) ->
  Forall (stops (config w)) (plugins w) ->
  exists w' status,
    reload_plugins w = (w', Ok tt)
    /\ snd (get_status w') = Ok status
    /\ loaded_plugins status = filter (can_load w) (names_of items)
    /\ total_plugins status = List.length (filter (can_load w) (names_of items)).
Proof.
  intros He Nn Nk Hs. unfold reload_plugins.
  unfold bind at 1. unfold logger at 1, modify at 1.
  set (w0 := add_log _ w).
  unfold bind at 1. unfold config_get at 1.
  change (config w0) with (config w). rewrite He.
  unfold bind at 1. unfold gets at 1. unfold bind at 1.
  destruct (unload_every (plugins w0) w0 eq_refl Nk Hs)
    as (w1 & Hr & Hp1 & Hc1 & Hf1).
  rewrite Hr. unfold bind at 1. unfold lift at 1. cbn [py_iter].
  unfold bind at 1.
  destruct (load_items_appends items w1 Nn) as (w2 & Hr2 & Hk2 & Hc2 & Hf2).
  { intros n _. now rewrite Hp1. }
  rewrite Hr2. run.
  destruct (ConfigFacts.get_total (config w2) "plugins.enabled" (VList []))
    as [v Hv].
  eexists. eexists. split; [reflexivity|].
  unfold get_status. run. rewrite Hv. cbn [snd].
  split; [reflexivity|]. cbn [loaded_plugins total_plugins].
  assert (dict_keys (plugins w2) = filter (can_load w) (names_of items)) as K.
  { rewrite Hk2, Hp1. cbn [dict_keys map app]. apply filter_ext.
    intros n. apply can_load_frame; [exact Hc1|exact Hf1]. }
  split; [exact K|]. rewrite <- K. unfold dict_keys. now rewrite length_map.
Qed.

Lemma reload_plugins_loads_what_it_can_witness :
  let w := set_config
             (VDict [("plugins",
                      VDict [("enabled",
                              VList [VStr "unbuildable"; VStr "scheduler";
                                     VStr "empty"; VStr "help"])])])
             (Fixtures.world
                [("old", Fixtures.instance_of
                           (Fixtures.simple_plugin "OldPlugin" VNone)
                           "OldPlugin")]) in
  exists w' status,
    reload_plugins w = (w', Ok tt)
    /\ snd (get_status w') = Ok status
    /\ loaded_plugins status = ["scheduler"; "help"]
    /\ total_plugins status = 2.
Proof.
  intros w.
  apply (reload_plugins_loads_what_it_can w
           [VStr "unbuildable"; VStr "scheduler"; VStr "empty"; VStr "help"]).
  - reflexivity.
  - repeat constructor; simpl; intuition discriminate.
  - repeat constructor; simpl; intuition discriminate.
  - repeat constructor.
Defined.

End ReloadingMore.

Module RouterMore.
Import HostSpec PluginManager MessageHandler RouterSpec TextSpec
  PluginManagerFacts TextFacts MessageHandlerFacts LoadingMore ReloadingMore.

Lemma for_each_returns {A} (items : list A) (body : A -> M unit) :
  (forall x, returns (body x)) -> returns (for_each items body).
Proof.
  intros Hb. induction items as [|x items IH]; intros w; cbn [for_each].
  - exists w, tt. reflexivity.
  - unfold bind. destruct (Hb x w) as (w1 & [] & ->). apply IH.
Qed.

Lemma unload_loop_returns names :
  returns (for_each names
             (fun plugin_name => _ <- unload_plugin plugin_name ;; ret tt)).
Proof.
  apply for_each_returns. intros n w. unfold bind, ret.
  destruct (unload_plugin_returns n w) as (w' & b & ->). eauto.
Qed.

Lemma load_loop_returns items : returns (for_each items load_item).
Proof.
  apply for_each_returns. intros x w.
  destruct (load_item_returns x w) as [w' ->]. eauto.
Qed.

(** X13.  [load_plugins] and [reload_plugins] return normally exactly
    when the value of [plugins.enabled] can be iterated (a list, a
    mapping, a string), whether or not any plugin could be loaded; the
    reload command then answers that the reload is complete.  When the
    value cannot be iterated ([None], a number, a truth value), both
    raise [TypeError], [load_plugins] without having done anything, and
    the reload command answers with its error text. *)
Theorem enabled_names_must_be_iterable w v self msg :
  ConfigManager.get (config w) "plugins.enabled" (VList []) = Ok v ->
  plugin_manager self <> None ->
  match py_iter v with
  | Ok _ =>
      snd (load_plugins w) = Ok tt
      /\ snd (reload_plugins w) = Ok tt
      /\ snd (_handle_reload self msg w) = Ok (VStr "✅ 插件重新加载完成！")
  | Raise e =>
      e = TypeError
      /\ load_plugins w = (w, Raise TypeError)
      /\ snd (reload_plugins w) = Raise TypeError
      /\ snd (_handle_reload self msg w) = Ok (VStr "重新加载插件时出现错误。")
  end.
Proof.
  intros He Hm.
  assert (exists w1, 
            forall (k : unit -> M unit),
              reload_plugins w =
              bind (lift (py_iter v))
                (fun items => for_each items load_item ;;
                              logger INFO "插件重新加载完成" [] None) w1) as [w1 R].
  { unfold reload_plugins.
    unfold bind at 1. unfold logger at 1, modify at 1.
    set (w0 := add_log _ w).
    unfold bind at 1. unfold config_get at 1.
    change (config w0) with (config w). rewrite He.
    unfold bind at 1. unfold gets at 1. unfold bind at 1.
    destruct (unload_loop_returns (dict_keys (plugins w0)) w0)
      as (w1 & [] & ->).
    exists w1. intros _. reflexivity. }
  specialize (R (fun _ => ret tt)).
  assert (load_plugins w =
          bind (lift (py_iter v)) (fun items => for_each items load_item) w) as L.
  { unfold load_plugins. unfold bind at 1. unfold config_get. rewrite He.
    unfold bind, lift. destruct (py_iter v) as [items|e]; auto.
    apply for_each_ext. intros; apply guarded_load_item. }
  assert (forall r, snd (reload_plugins w) = r ->
            snd (_handle_reload self msg w) =
            match r with
            | Ok _ => Ok (VStr "✅ 插件重新加载完成！")
            | Raise _ => Ok (VStr "重新加载插件时出现错误。")
            end) as H.
  { intros r Hr. unfold _handle_reload, _get_plugin_manager.
    destruct (plugin_manager self); [|congruence]. run.
    destruct (reload_plugins w) as [w' [u|e]]; cbn [snd] in Hr; subst r;
      reflexivity. }
  destruct (py_iter v) as [items|e] eqn:I.
  - assert (snd (reload_plugins w) = Ok tt) as Rr.
    { rewrite R. unfold bind at 1, lift. unfold bind.
      destruct (load_loop_returns items w1) as (w2 & [] & ->). reflexivity. }
    split; [|split; [exact Rr|exact (H _ Rr)]].
    rewrite L. unfold bind, lift.
    destruct (load_loop_returns items w) as (w2 & [] & ->). reflexivity.
  - assert (e = TypeError) as ->.
    { destruct v; simpl in I; congruence. }
    assert (snd (reload_plugins w) = Raise TypeError) as Rr
        by (rewrite R; reflexivity).
    split; [reflexivity|]. split; [rewrite L; reflexivity|].
    split; [exact Rr|exact (H _ Rr)].
Qed.

Lemma enabled_names_must_be_iterable_witness :
  let w := set_config (VDict [("plugins", VDict [("enabled", VNone)])])
             (Fixtures.world []) in
  load_plugins w = (w, Raise TypeError)
  /\ snd (_handle_reload Fixtures.wired VNone w)
     = Ok (VStr "重新加载插件时出现错误。").
Proof.
  intros w.
  pose proof (enabled_names_must_be_iterable w VNone Fixtures.wired VNone
                eq_refl ltac:(discriminate)) as H.
  cbn [py_iter] in H. destruct H as (_ & H1 & _ & H2). auto.
Defined.

(** X14.  The help command is recognised whatever its case and whatever
    white space surrounds it, in either language, and the answer is the
    same help text each time; nothing but the log changes, and no plugin
    manager is needed. *)
Theorem help_is_answered_alike self msg rnd w user_id text :
  py_getitem msg "FromUserName" = Ok user_id ->
  py_getitem msg "Text" = Ok (VStr text) ->
  In (casefold (strip text)) ["帮助"; "help"] ->
  handle_text_message self msg rnd w
  = (add_log (received (strip text) user_id) w, Ok (VStr (strip help_text))).
Proof.
  intros Hu Ht Hin. unfold handle_text_message. run.
  rewrite Hu, Ht. cbn [py_strip].
  assert (first_match command_patterns (strip text) = Some cmd_help) as ->.
  { unfold command_patterns, first_match, re_match. cbn [existsb].
    destruct Hin as [<-|[<-|[]]]; rewrite String.eqb_refl;
      rewrite ?orb_true_r; reflexivity. }
  reflexivity.
Qed.

Lemma help_is_answered_alike_witness :
  snd (handle_text_message Fixtures.wired
         (Fixtures.text_message "alice" "  HeLP ") 0 (Fixtures.world []))
  = snd (handle_text_message Fixtures.wired
           (Fixtures.text_message "bob" "帮助") 3 (Fixtures.world [])).
Proof.
  rewrite (help_is_answered_alike Fixtures.wired
             (Fixtures.text_message "alice" "  HeLP ") 0 (Fixtures.world [])
             (VStr "alice") "  HeLP " eq_refl eq_refl)
    by (right; left; reflexivity).
  rewrite (help_is_answered_alike Fixtures.wired
             (Fixtures.text_message "bob" "帮助") 3 (Fixtures.world [])
             (VStr "bob") "帮助" eq_refl eq_refl)
    by (left; reflexivity).
  reflexivity.
Defined.

Lemma split_space_once_name name : forall args,
  no_space name = true ->
  split_space_once (name ++ String " " args) = [name; args]
  /\ split_space_once name = [name].
Proof.
  induction name as [|c name IH]; intros args H; simpl in *.
  - auto.
  - apply andb_prop in H. destruct H as [Hc Hn].
    apply negb_true_iff in Hc. rewrite Hc.
    destruct (IH args Hn) as [-> ->]. auto.
Qed.

(** X15.  A [/]-command is split at its first space only: for a name
    without a space that is registered, the plugin is called with the
    rest of the text as it stands (further spaces included) and with the
    sender as [user_id]; without a space after the name the command
    string is empty.  What the plugin returns is what
    [_handle_plugin_command] returns. *)
Theorem plugin_gets_argument_verbatim self w name args user_id p :
  plugin_manager self <> None ->
  no_space name = true ->
  dict_get name (plugins w) = Some p ->
  snd (_handle_plugin_command self (String "/" (name ++ String " " args))
         user_id w)
  = match snd (BasePlugin.execute_command (cls p) (config w) (self_ p)
                 args [("user_id", user_id)]) with
    | Ok v => Ok v
    | Raise _ => Ok VNone
    end
  /\ snd (_handle_plugin_command self (String "/" name) user_id w)
     = match snd (BasePlugin.execute_command (cls p) (config w) (self_ p)
                    EmptyString [("user_id", user_id)]) with
       | Ok v => Ok v
       | Raise _ => Ok VNone
       end.
Proof.
  intros Hm Hn Hd.
  destruct (split_space_once_name name args Hn) as [S1 S2].
  set (c1 := String "/" (name ++ String " " args)).
  set (c2 := String "/" name).
  assert (addressed_plugin c1 = name /\ argument_string c1 = args) as [A1 B1].
  { unfold addressed_plugin, argument_string, c1. cbn [tail]. rewrite S1. auto. }
  assert (addressed_plugin c2 = name /\ argument_string c2 = EmptyString)
    as [A2 B2].
  { unfold addressed_plugin, argument_string, c2. cbn [tail]. rewrite S2. auto. }
  split.
  - rewrite (plugin_command_loaded self c1 user_id w p Hm)
      by (try reflexivity; now rewrite A1).
    rewrite A1, B1.
    destruct (BasePlugin.execute_command _ _ _ _ _) as [self' [v|e]];
      reflexivity.
  - rewrite (plugin_command_loaded self c2 user_id w p Hm)
      by (try reflexivity; now rewrite A2).
    rewrite A2, B2.
    destruct (BasePlugin.execute_command _ _ _ _ _) as [self' [v|e]];
      reflexivity.
Qed.

Lemma plugin_gets_argument_verbatim_witness :
  snd (_handle_plugin_command Fixtures.wired
         "/scheduler add daily 09:00 test" (VStr "alice")
         (Fixtures.world
            [("scheduler",
              Fixtures.instance_of FixturesMore.echo_plugin "EchoPlugin")]))
  = Ok (VStr "add daily 09:00 test").
Proof.
  pose proof (plugin_gets_argument_verbatim Fixtures.wired
                (Fixtures.world
                   [("scheduler",
                     Fixtures.instance_of FixturesMore.echo_plugin "EchoPlugin")])
                "scheduler" "add daily 09:00 test" (VStr "alice")
                (Fixtures.instance_of FixturesMore.echo_plugin "EchoPlugin")
                ltac:(discriminate) eq_refl eq_refl) as H.
  exact (proj1 H).
Defined.

(** X16.  Text that is neither a system command nor a [/]-command gets a
    default response, one of the four, and changes nothing but the log.
    A system word with anything around it, such as a question that
    starts with it, is such a text: the patterns match whole messages. *)
Theorem other_text_gets_default_response self msg rnd w user_id text :
  py_getitem msg "FromUserName" = Ok user_id ->
  py_getitem msg "Text" = Ok (VStr text) ->
  startswith_slash (strip text) = false ->
  first_match command_patterns (strip text) = None ->
  handle_text_message self msg rnd w
  = (add_log (received (strip text) user_id) w,
     Ok (VStr (_get_default_response self rnd)))
  /\ In (_get_default_response self rnd) responses.
Proof.
  intros Hu Ht Hs Hf. split; [|apply default_response_listed].
  unfold handle_text_message. run. rewrite Hu, Ht. cbn [py_strip].
  rewrite Hf. unfold _handle_plugin_command. rewrite Hs. run. reflexivity.
Qed.

Lemma other_text_gets_default_response_witness :
  snd (handle_text_message Fixtures.wired
         (Fixtures.text_message "alice" "help me please") 4 (Fixtures.world []))
  = Ok (VStr "有什么可以帮助您的吗？").
Proof.
  refine (f_equal snd (proj1
    (other_text_gets_default_response Fixtures.wired _ 4 (Fixtures.world [])
       (VStr "alice") "help me please" _ _ _ _))); reflexivity.
Defined.

(** X17.  [execute_command] never raises and its reply is never empty,
    whatever the command and the plugins; when the plugins answer with
    text the reply is a string.  A command that is not a string gets the
    error text. *)
Theorem execute_command_always_replies self command user_id w :
  exists w' v,
    MessageHandlerRest.execute_command self command user_id w = (w', Ok v)
    /\ py_truthy v = true
    /\ (replies_with_text w -> exists s, v = VStr s /\ s <> EmptyString)
    /\ ((forall s, command <> VStr s) -> v = VStr "执行命令时出现错误。").
Proof.
  unfold MessageHandlerRest.execute_command. run.
  destruct command as [| | |s| |];
    try (do 2 eexists; repeat split; eauto; intros; eexists; split;
         [reflexivity|discriminate]).
  destruct (first_match command_patterns s) as [h|].
  - destruct (run_handler_replies h self
                (VDict [("FromUserName", user_id); ("Text", VStr s)]) w)
      as (w' & r & -> & Hr).
    do 2 eexists. split; [reflexivity|]. split.
    { simpl. destruct r; [congruence|reflexivity]. }
    split; [eauto|]. intros N. now destruct (N s).
  - destruct (plugin_command_total self s user_id w) as (w' & v & -> & Hv).
    destruct (py_truthy v) eqn:T.
    + do 2 eexists. split; [reflexivity|]. split; [exact T|]. split.
      * intros Hrt. destruct (Hv Hrt eq_refl) as [r ->]. exists r.
        split; auto. now apply truthy_str_nonempty.
      * intros N. now destruct (N s).
    + do 2 eexists. split; [reflexivity|]. split; [reflexivity|]. split.
      * intros _. eexists. split; [reflexivity|discriminate].
      * intros N. now destruct (N s).
Qed.

(** X18.  [handle_file_message] never raises.  Without a plugin
    registered as [file_converter] (or without a plugin manager) it
    answers that the conversion is not available, and only the log
    changes; a message without sender, file name or path gets the error
    text. *)
Theorem file_message_without_converter self upload msg w :
  (exists w' v,
     MessageHandlerRest.handle_file_message self upload msg w = (w', Ok v))
  /\ (forall user_id file_name file_path,
        py_getitem msg "FromUserName" = Ok user_id ->
        py_getitem msg "FileName" = Ok file_name ->
        py_getitem msg "Text" = Ok file_path ->
        plugin_manager self = None
        \/ dict_get "file_converter" (plugins w) = None ->
        snd (MessageHandlerRest.handle_file_message self upload msg w)
        = Ok (VStr "文件转换功能暂不可用。")
        /\ plugins (fst (MessageHandlerRest.handle_file_message self upload msg w))
           = plugins w)
  /\ ((exists e,
         py_getitem msg "FromUserName" = Raise e
         \/ py_getitem msg "FileName" = Raise e
         \/ py_getitem msg "Text" = Raise e) ->
      snd (MessageHandlerRest.handle_file_message self upload msg w)
      = Ok (VStr "抱歉，处理文件时出现错误。")).
Proof.
  unfold MessageHandlerRest.handle_file_message,
    MessageHandlerRest._get_plugin, MessageHandlerRest.call_upload,
    _get_plugin_manager, PluginManager.get_plugin, invoke.
  split; [|split].
  - run.
    destruct (py_getitem msg "FromUserName") as [user_id|e]; [|eauto].
    destruct (py_getitem msg "FileName") as [file_name|e]; [|eauto].
    destruct (py_getitem msg "Text") as [file_path|e]; [|eauto].
    destruct (plugin_manager self); run; [|eauto].
    destruct (dict_get "file_converter" (plugins w)) as [p|] eqn:E; run;
      [|eauto].
    rewrite E.
    destruct (upload (cls p)) as [method|]; run; [|eauto].
    rewrite E.
    destruct (method (config w) (self_ p) file_path file_name user_id)
      as [self' [v|e]]; eauto.
  - intros user_id file_name file_path -> -> -> H. run.
    destruct (plugin_manager self); run.
    + destruct H as [H|H]; [discriminate|]. rewrite H. run. auto.
    + auto.
  - intros [e H]. run.
    destruct (py_getitem msg "FromUserName") as [user_id|e1]; [|reflexivity].
    destruct (py_getitem msg "FileName") as [file_name|e2]; [|reflexivity].
    destruct (py_getitem msg "Text") as [file_path|e3]; [|reflexivity].
    destruct H as [H|[H|H]]; discriminate.
Qed.

End RouterMore.
